(** * Peach flask store: order creation, stock ledger and PayFast signatures

    A shallow embedding of [src/controllers/orderController.js] together
    with the Mongoose schema of orders, and the properties of the
    order-fulfilment specification checked against it.

    Conventions of the embedding.
    - JavaScript numbers that carry money and quantities are integers
      ([Z]); a request field that is absent ([undefined]) is [None].
    - Strings are byte strings (the UTF-8 form of the JavaScript string).
    - MongoDB collections are finite maps from the hexadecimal ObjectId
      (a [string]) to the stored document.
    - Every [await] on the database is one atomic database operation; the
      code between two [await]s runs without interruption (Node's event
      loop), which is what the interleaving model of module [Interleaving]
      relies on. *)

From Stdlib Require Import ZArith String Ascii List Lia Bool.
From stdpp Require Import gmap strings list pretty.
Import ListNotations.
Local Open Scope string_scope.
Local Open Scope Z_scope.

(* ===================================================================== *)
(** ** Bytes, hexadecimal digits and the two URL encoders                *)
(* ===================================================================== *)

Definition byte_of_ascii (c : ascii) : Z := Z.of_N (N_of_ascii c).
Definition ascii_of_byte (b : Z) : ascii := ascii_of_N (Z.to_N (b mod 256)).

Definition bytes_of_string (s : string) : list Z :=
  map byte_of_ascii (list_ascii_of_string s).

Definition hex_digit (upper : bool) (d : Z) : ascii :=
  if d <? 10 then ascii_of_byte (48 + d)
  else ascii_of_byte ((if upper then 55 else 87) + d).

Definition hex_byte (upper : bool) (b : Z) : string :=
  String (hex_digit upper (b / 16)) (String (hex_digit upper (b mod 16)) EmptyString).

Definition in_range (lo hi b : Z) : bool := (lo <=? b) && (b <=? hi).

Definition is_alnum (b : Z) : bool :=
  in_range 48 57 b || in_range 65 90 b || in_range 97 122 b.

(** Characters that [encodeURIComponent] leaves alone:
    [A-Z a-z 0-9 - _ . ! ~ * ' ( )]. *)
Definition uri_unreserved (b : Z) : bool :=
  is_alnum b ||
  existsb (Z.eqb b) [45; 95; 46; 33; 126; 42; 39; 40; 41].

Fixpoint encodeURIComponent (s : string) : string :=
  match s with
  | EmptyString => EmptyString
  | String c rest =>
      let b := byte_of_ascii c in
      (if uri_unreserved b then String c EmptyString
       else String "%"%char (hex_byte true b))
      +:+ encodeURIComponent rest
  end.

(** The [application/x-www-form-urlencoded] serializer behind
    [URLSearchParams.toString()]: [A-Z a-z 0-9 * - . _] are kept, a space
    becomes [+], every other byte is percent-encoded. *)
Definition form_unreserved (b : Z) : bool :=
  is_alnum b || existsb (Z.eqb b) [42; 45; 46; 95].

Fixpoint form_urlencode (s : string) : string :=
  match s with
  | EmptyString => EmptyString
  | String c rest =>
      let b := byte_of_ascii c in
      (if form_unreserved b then String c EmptyString
       else if b =? 32 then "+"
       else String "%"%char (hex_byte true b))
      +:+ form_urlencode rest
  end.

(** [Array.prototype.join]. *)
Fixpoint join (sep : string) (l : list string) : string :=
  match l with
  | [] => ""
  | [x] => x
  | x :: rest => x +:+ sep +:+ join sep rest
  end.

(** [String.prototype.toUpperCase] on the ASCII letters. *)
Definition upper_ascii (c : ascii) : ascii :=
  let b := byte_of_ascii c in
  if in_range 97 122 b then ascii_of_byte (b - 32) else c.

Fixpoint toUpperCase (s : string) : string :=
  match s with
  | EmptyString => EmptyString
  | String c rest => String (upper_ascii c) (toUpperCase rest)
  end.

(* ===================================================================== *)
(** ** MD5 ([crypto.createHash('md5').update(s).digest('hex')])          *)
(* ===================================================================== *)

Module MD5.

Definition w32 (x : Z) : Z := x mod 4294967296.
Definition not32 (x : Z) : Z := Z.lxor x 4294967295.
Definition rotl32 (x c : Z) : Z :=
  w32 (Z.lor (Z.shiftl x c) (Z.shiftr x (32 - c))).

Definition K : list Z :=
  [3614090360; 3905402710; 606105819; 3250441966; 4118548399; 1200080426;
   2821735955; 4249261313; 1770035416; 2336552879; 4294925233; 2304563134;
   1804603682; 4254626195; 2792965006; 1236535329; 4129170786; 3225465664;
   643717713; 3921069994; 3593408605; 38016083; 3634488961; 3889429448;
   568446438; 3275163606; 4107603335; 1163531501; 2850285829; 4243563512;
   1735328473; 2368359562; 4294588738; 2272392833; 1839030562; 4259657740;
   2763975236; 1272893353; 4139469664; 3200236656; 681279174; 3936430074;
   3572445317; 76029189; 3654602809; 3873151461; 530742520; 3299628645;
   4096336452; 1126891415; 2878612391; 4237533241; 1700485571; 2399980690;
   4293915773; 2240044497; 1873313359; 4264355552; 2734768916; 1309151649;
   4149444226; 3174756917; 718787259; 3951481745].

Definition shifts : list Z :=
  [7; 12; 17; 22; 7; 12; 17; 22; 7; 12; 17; 22; 7; 12; 17; 22;
   5; 9; 14; 20; 5; 9; 14; 20; 5; 9; 14; 20; 5; 9; 14; 20;
   4; 11; 16; 23; 4; 11; 16; 23; 4; 11; 16; 23; 4; 11; 16; 23;
   6; 10; 15; 21; 6; 10; 15; 21; 6; 10; 15; 21; 6; 10; 15; 21].

Definition state : Type := Z * Z * Z * Z.

Definition init : state := (1732584193, 4023233417, 2562383102, 271733878).

(** Message padding: a [0x80] byte, zero bytes up to 56 modulo 64, then
    the bit length as a 64-bit little-endian integer. *)
Fixpoint le_bytes (n : nat) (x : Z) : list Z :=
  match n with
  | O => []
  | S n' => (x mod 256) :: le_bytes n' (x / 256)
  end.

Definition pad (msg : list Z) : list Z :=
  let len := Z.of_nat (length msg) in
  let zeros := Z.to_nat ((55 - len) mod 64) in
  msg ++ [128] ++ repeat 0 zeros ++ le_bytes 8 (8 * len).

Fixpoint le_word (bs : list Z) : Z :=
  match bs with
  | [] => 0
  | b :: rest => b + 256 * le_word rest
  end.

Fixpoint words (n : nat) (bs : list Z) : list Z :=
  match n with
  | O => []
  | S n' => le_word (firstn 4 bs) :: words n' (skipn 4 bs)
  end.

Definition round (M : list Z) (st : state) (i : nat) : state :=
  let '(a, b, c, d) := st in
  let zi := Z.of_nat i in
  let '(f, g) :=
    if zi <? 16 then (Z.lor (Z.land b c) (Z.land (not32 b) d), zi)
    else if zi <? 32 then
      (Z.lor (Z.land d b) (Z.land (not32 d) c), (5 * zi + 1) mod 16)
    else if zi <? 48 then (Z.lxor b (Z.lxor c d), (3 * zi + 5) mod 16)
    else (Z.lxor c (Z.lor b (not32 d)), (7 * zi) mod 16) in
  let f' := w32 (f + a + nth i K 0 + nth (Z.to_nat g) M 0) in
  (d, w32 (b + rotl32 f' (nth i shifts 0)), b, c).

Definition compress (st : state) (block : list Z) : state :=
  let M := words 16 block in
  let '(a, b, c, d) := fold_left (round M) (seq 0 64) st in
  let '(a0, b0, c0, d0) := st in
  (w32 (a0 + a), w32 (b0 + b), w32 (c0 + c), w32 (d0 + d)).

Fixpoint blocks (n : nat) (st : state) (bs : list Z) : state :=
  match n with
  | O => st
  | S n' => blocks n' (compress st (firstn 64 bs)) (skipn 64 bs)
  end.

Definition digest (msg : list Z) : list Z :=
  let p := pad msg in
  let '(a, b, c, d) := blocks (length p / 64) init p in
  le_bytes 4 a ++ le_bytes 4 b ++ le_bytes 4 c ++ le_bytes 4 d.

Definition hex (s : string) : string :=
  fold_right (fun b acc => hex_byte false b +:+ acc) ""
             (digest (bytes_of_string s)).

End MD5.

Example md5_empty : MD5.hex "" = "d41d8cd98f00b204e9800998ecf8427e".
Proof. vm_compute. reflexivity. Qed.

Example md5_abc : MD5.hex "abc" = "900150983cd24fb0d6963f7d28e17f72".
Proof. vm_compute. reflexivity. Qed.

Example md5_amount : MD5.hex "amount=105.00" = "2e6ab92b37ba5bce4bd8da985c61494e".
Proof. vm_compute. reflexivity. Qed.

Example encodeURIComponent_url :
  encodeURIComponent "https://shop.test/ok?a=1 b" = "https%3A%2F%2Fshop.test%2Fok%3Fa%3D1%20b".
Proof. vm_compute. reflexivity. Qed.

(* ===================================================================== *)
(** ** Documents, requests and responses                                 *)
(* ===================================================================== *)

(** A product document ([productSchema], which the sources hold in
    [models/category.js] after the category schema) as the order
    controller reads it: the [stock] and [price], and the [name] and first
    image URL that [processOrderItems] copies into the order. *)
Record Product := mkProduct {
  p_name : string;
  p_price : Z;
  p_stock : Z;
  p_image : option string
}.

(** A line item of the request body: [{ id, quantity }]. *)
Record Item := mkItem {
  i_id : string;
  i_quantity : Z
}.

(** A line item of an order: the snapshot pushed by [processOrderItems]. *)
Record OrderItem := mkOrderItem {
  oi_product : string;
  oi_name : string;
  oi_quantity : Z;
  oi_price : Z;
  oi_image : option string
}.

Record Address := mkAddress {
  a_address : option string;
  a_city : option string;
  a_postalCode : option string;
  a_country : option string
}.

Record ShippingAddress := mkShippingAddress {
  sa_address : Address;
  sa_email : option string;
  sa_phone : option string;
  sa_fullName : option string
}.

(** [order.paymentResult] as the controller assigns it. *)
Record PaymentResult := mkPaymentResult {
  pr_id : option string;
  pr_status : option string;
  pr_update_time : option string;
  pr_rawData : list (string * string);
  pr_redirectUrl : option string
}.

Record Order := mkOrder {
  o_id : string;
  o_user : option string;
  o_items : list OrderItem;
  o_subtotal : option Z;
  o_shippingCost : option Z;
  o_discount : Z;
  o_totalAmount : option Z;
  o_shippingAddress : ShippingAddress;
  o_paymentMethod : option string;
  o_paymentResult : option PaymentResult;
  o_couponUsed : option string;
  o_status : string;
  o_deliveredAt : option string;
  o_trackingId : option string
}.

Record User := mkUser {
  u_id : string;
  u_role : string
}.

(** The body of an order-creation request. *)
Record Body := mkBody {
  b_email : option string;
  b_phone : option string;
  b_name : option string;
  b_subtotal : option Z;
  b_shippingCost : option Z;
  b_discount : option Z;
  b_totalAmount : option Z;
  b_shippingAddress : option Address;
  b_items : option (list Item);
  b_paymentMethod : option string;
  b_couponCode : option string
}.

(** The part of the rest object [amounts] that the controller reads. *)
Record Amounts := mkAmounts {
  subtotal : option Z;
  shippingCost : option Z;
  discount : option Z;
  totalAmount : option Z
}.

Definition amounts_of (b : Body) : Amounts :=
  {| subtotal := b_subtotal b; shippingCost := b_shippingCost b;
     discount := b_discount b; totalAmount := b_totalAmount b |}.

(** Modelled from the spec: the coupon schema ([models/Coupon.js]) is not
    among the sources; a coupon is a code and an identity, so the coupons
    are a map from the code to the coupon's id.  With the products and the
    orders they are the three collections of the store. *)
Record DB := mkDB {
  products : gmap string Product;
  orders : gmap string Order;
  coupons : gmap string string
}.

Definition with_products (db : DB) (ps : gmap string Product) : DB :=
  {| products := ps; orders := orders db; coupons := coupons db |}.

Definition with_orders (db : DB) (os : gmap string Order) : DB :=
  {| products := products db; orders := os; coupons := coupons db |}.

(** [process.env] as the payment code reads it. *)
Record Env := mkEnv {
  PAYFAST_MERCHANT_ID : option string;
  PAYFAST_MERCHANT_KEY : option string;
  PAYFAST_RETURN_URL : option string;
  PAYFAST_CANCEL_URL : option string;
  PAYFAST_NOTIFY_URL : option string;
  PAYFAST_PASSPHRASE : option string;
  PAYFAST_URL : option string
}.

(** The failures of the controller.  Each is one [handleError] call or one
    thrown [Error] that the [catch] of the handler turns into a response. *)
Inductive Error :=
| ValidationError (missingFields : list string)
| NoItems
| ProductNotFound (id : string)
| InsufficientStock (name : string) (available : Z)
| AmountMismatch
| CouponRequiresAuth
| CouponInvalid
| OrderNotFound
| InvalidStatus
| InvalidSignature
| OrderValidation
| ServerError.

Inductive Response :=
| Created (o : Order)
| Updated (o : Order)
| Acknowledged
| Failed (e : Error).

(** Modelled from the spec: [utils/responseHandler.js] is not among the
    sources; [handleResponse] and [handleError] are taken to answer with
    the status code they are passed, which is the HTTP status below. *)
Definition status_code (r : Response) : Z :=
  match r with
  | Created _ => 201
  | Updated _ => 200
  | Acknowledged => 200
  | Failed (ValidationError _) => 400
  | Failed NoItems => 400
  | Failed AmountMismatch => 400
  | Failed InvalidStatus => 400
  | Failed InvalidSignature => 400
  | Failed OrderNotFound => 404
  | Failed _ => 500
  end.

(** The message of the response ([error.message] for a thrown error; the
    text of Mongoose's validation error is abbreviated). *)
Definition message (e : Error) : string :=
  match e with
  | ValidationError ms => "Missing required fields: " +:+ join ", " ms
  | NoItems => "No order items specified"
  | ProductNotFound i => "Product not found: " +:+ i
  | InsufficientStock n a =>
      "Insufficient stock for " +:+ n +:+ ". Available: " +:+ pretty a
  | AmountMismatch => "Invalid total amount calculation"
  | CouponRequiresAuth => "Authentication required for coupon use"
  | CouponInvalid => "Invalid or expired coupon"
  | OrderNotFound => "Order not found"
  | InvalidStatus => "Invalid status value"
  | InvalidSignature => "Invalid signature"
  | OrderValidation => "Order validation failed"
  | ServerError => "Server error"
  end.

(** JavaScript truthiness of the two kinds of field values. *)
Definition truthy_str (v : option string) : bool :=
  match v with
  | Some s => negb (String.eqb s "")
  | None => false
  end.

Definition truthy_num (v : option Z) : bool :=
  match v with
  | Some n => negb (n =? 0)
  | None => false
  end.

Definition truthy_obj {A} (v : option A) : bool :=
  match v with
  | Some _ => true
  | None => false
  end.

(** String conversion of a possibly undefined environment value, as in a
    template literal or in [encodeURIComponent(undefined)]. *)
Definition js_string (v : option string) : string := default "undefined" v.

(* ===================================================================== *)
(** ** Order creation                                                    *)
(* ===================================================================== *)

Definition requiredFields : list string :=
  ["email"; "phone"; "name"; "subtotal"; "shippingCost"; "shippingAddress";
   "totalAmount"].

(** [!!req.body[field]] for the names of [requiredFields]. *)
Definition body_truthy (b : Body) (field : string) : bool :=
  if String.eqb field "email" then truthy_str (b_email b)
  else if String.eqb field "phone" then truthy_str (b_phone b)
  else if String.eqb field "name" then truthy_str (b_name b)
  else if String.eqb field "subtotal" then truthy_num (b_subtotal b)
  else if String.eqb field "shippingCost" then truthy_num (b_shippingCost b)
  else if String.eqb field "shippingAddress" then truthy_obj (b_shippingAddress b)
  else if String.eqb field "totalAmount" then truthy_num (b_totalAmount b)
  else false.

Definition missingFields (b : Body) : list string :=
  List.filter (fun field => negb (body_truthy b field)) requiredFields.

(** [Product.find({ _id: { $in: ids } })]: the in-memory documents of the
    request, one per stored product whose id is asked for. *)
Definition Product_find (ids : list string) (ps : gmap string Product)
  : gmap string Product :=
  filter (fun kv => kv.1 ∈ ids) ps.

Definition set_stock (v : Z) (p : Product) : Product :=
  {| p_name := p_name p; p_price := p_price p; p_stock := v;
     p_image := p_image p |}.

(** [product.save()] after [product.stock -= quantity]: Mongoose writes the
    modified path only, [$set: { stock }], and writes nothing when the
    assignment left the value as it was (a quantity of 0). *)
Definition Product_save (id : string) (p : Product) (changed : bool)
  (ps : gmap string Product) : gmap string Product :=
  if changed then alter (set_stock (p_stock p)) id ps else ps.

(** One turn of the loop of [processOrderItems]: [local] holds the
    documents returned by [Product.find], [ps] is the stored collection. *)
Definition processItem (item : Item) (local ps : gmap string Product)
  : Error + (gmap string Product * gmap string Product * OrderItem * Z) :=
  match local !! i_id item with
  | None => inl (ProductNotFound (i_id item))
  | Some product =>
      if p_stock product <? i_quantity item then
        inl (InsufficientStock (p_name product) (p_stock product))
      else
        let product' := set_stock (p_stock product - i_quantity item) product in
        inr (<[i_id item := product']> local,
             Product_save (i_id item) product'
                          (negb (i_quantity item =? 0)) ps,
             {| oi_product := i_id item; oi_name := p_name product;
                oi_quantity := i_quantity item; oi_price := p_price product;
                oi_image := p_image product |},
             p_price product * i_quantity item)
  end.

(** [processOrderItems], with the loop state made explicit: the in-memory
    documents, the stored collection, [orderItems] and
    [calculatedSubtotal].  A thrown error leaves the store as the writes
    made so far left it. *)
Fixpoint processOrderItems_from (items : list Item)
  (local ps : gmap string Product) (orderItems : list OrderItem)
  (calculatedSubtotal : Z)
  : gmap string Product * (Error + (list OrderItem * Z)) :=
  match items with
  | [] => (ps, inr (orderItems, calculatedSubtotal))
  | item :: rest =>
      match processItem item local ps with
      | inl e => (ps, inl e)
      | inr (local', ps', oi, amount) =>
          processOrderItems_from rest local' ps' (orderItems ++ [oi])
                                 (calculatedSubtotal + amount)
      end
  end.

Definition processOrderItems (items : list Item)
  (local ps : gmap string Product)
  : gmap string Product * (Error + (list OrderItem * Z)) :=
  processOrderItems_from items local ps [] 0.

(** [calculatedSubtotal + amounts.shippingCost - amounts.discount]; an
    absent operand makes the result [NaN], rendered [None]. *)
Definition calculatedTotal (amounts : Amounts) (calculatedSubtotal : Z)
  : option Z :=
  match shippingCost amounts, discount amounts with
  | Some s, Some d => Some (calculatedSubtotal + s - d)
  | _, _ => None
  end.

(** [validateOrderAmounts]: [true] when it returns, [false] when it
    answers 400 and throws.  [!==] against [NaN] is always true. *)
Definition validateOrderAmounts (amounts : Amounts) (calculatedSubtotal : Z)
  : bool :=
  match totalAmount amounts, calculatedTotal amounts calculatedSubtotal with
  | Some t, Some c => t =? c
  | _, _ => false
  end.

(** [handleCoupon]: the coupon's id, [None] when no code was sent. *)
Definition handleCoupon (couponCode : option string) (user : option User)
  (cs : gmap string string) : Error + option string :=
  if negb (truthy_str couponCode) then inr None
  else match user with
       | None => inl CouponRequiresAuth
       | Some _ =>
           match cs !! toUpperCase (default "" couponCode) with
           | None => inl CouponInvalid
           | Some c => inr (Some c)
           end
       end.

(** [{ ...address, email, phone, fullName }]; spreading [undefined] adds
    no field. *)
Definition buildShippingAddress (body : Body) (address : option Address)
  : ShippingAddress :=
  {| sa_address := default (mkAddress None None None None) address;
     sa_email := b_email body;
     sa_phone := b_phone body; sa_fullName := b_name body |}.

(** [createOrderDocument]; [_id] is the fresh ObjectId that [new Order]
    draws, [discount] has the schema default 0. *)
Definition createOrderDocument (_id : string) (items : list OrderItem)
  (shippingAddress : ShippingAddress) (paymentMethod : option string)
  (amounts : Amounts) (user : option string) (coupon : option string)
  : Order :=
  {| o_id := _id; o_user := user; o_items := items;
     o_subtotal := subtotal amounts;
     o_shippingCost := shippingCost amounts;
     o_discount := default 0 (discount amounts);
     o_totalAmount := totalAmount amounts;
     o_shippingAddress := shippingAddress;
     o_paymentMethod := paymentMethod;
     o_paymentResult := None;
     o_couponUsed := coupon;
     o_status := "Processing";
     o_deliveredAt := None;
     o_trackingId := None |}.

(* ===================================================================== *)
(** ** PayFast: the signed redirect payload and the webhook signature    *)
(* ===================================================================== *)

(** A JavaScript object with string values: its own keys in insertion
    order.  Keys are distinct in every object built by the functions
    below. *)
Definition Object := list (string * string).

Definition obj_get (key : string) (o : Object) : option string :=
  snd <$> List.find (fun kv => String.eqb (fst kv) key) o.

Definition obj_delete (key : string) (o : Object) : Object :=
  List.filter (fun kv => negb (String.eqb (fst kv) key)) o.

(** [o[key] = v]: a present key keeps its place, a new one goes last. *)
Fixpoint obj_set (key v : string) (o : Object) : Object :=
  match o with
  | [] => [(key, v)]
  | (k, w) :: rest =>
      if String.eqb k key then (k, v) :: rest
      else (k, w) :: obj_set key v rest
  end.

Definition Object_keys (o : Object) : list string := map fst o.

(** [Array.prototype.sort()] on strings: ascending code-unit order. *)
Fixpoint sort_insert (k : string) (l : list string) : list string :=
  match l with
  | [] => [k]
  | x :: rest =>
      if String.leb k x then k :: l else x :: sort_insert k rest
  end.

Definition sort (l : list string) : list string :=
  fold_right sort_insert [] l.

(** [Number.prototype.toFixed(2)] of an integer. *)
Definition toFixed2 (n : Z) : string := pretty n +:+ ".00".

(** The object [params] of [generatePayfastPayload] before it is signed;
    [None] when [order.totalAmount] is undefined and [toFixed] throws. *)
Definition payfastParams (env : Env) (order : Order) : option Object :=
  match o_totalAmount order with
  | None => None
  | Some total =>
      let params :=
        [("merchant_id", js_string (PAYFAST_MERCHANT_ID env));
         ("merchant_key", js_string (PAYFAST_MERCHANT_KEY env));
         ("return_url", js_string (PAYFAST_RETURN_URL env));
         ("cancel_url", js_string (PAYFAST_CANCEL_URL env));
         ("notify_url", js_string (PAYFAST_NOTIFY_URL env));
         ("m_payment_id", o_id order);
         ("amount", toFixed2 total);
         ("item_name", "Order #" +:+ o_id order)] in
      Some (if truthy_str (PAYFAST_PASSPHRASE env)
            then obj_set "passphrase" (js_string (PAYFAST_PASSPHRASE env)) params
            else params)
  end.

(** [signatureString] of [generatePayfastPayload]. *)
Definition payfastSignatureString (params : Object) : string :=
  join "&"
    (map (fun key => key +:+ "=" +:+ encodeURIComponent (js_string (obj_get key params)))
         (sort (Object_keys params))).

(** [params.signature] of [generatePayfastPayload]. *)
Definition payfastSignature (params : Object) : string :=
  MD5.hex (payfastSignatureString params).

(** [new URLSearchParams(params).toString()]. *)
Definition URLSearchParams (params : Object) : string :=
  join "&" (map (fun kv => form_urlencode (fst kv) +:+ "=" +:+ form_urlencode (snd kv))
                params).

Definition generatePayfastPayload (env : Env) (order : Order)
  : option PaymentResult :=
  match payfastParams env order with
  | None => None
  | Some params =>
      let signed := obj_set "signature" (payfastSignature params) params in
      Some {| pr_id := None; pr_status := Some "pending";
              pr_update_time := None; pr_rawData := [];
              pr_redirectUrl :=
                Some (js_string (PAYFAST_URL env) +:+ "?" +:+ URLSearchParams signed) |}
  end.

(** [signatureString] of [verifyPayfastSignature]. *)
Definition verifySignatureString (env : Env) (data : Object) : string :=
  let signatureString :=
    join "&"
      (map (fun key => key +:+ "=" +:+ encodeURIComponent (js_string (obj_get key data)))
           (sort (Object_keys data))) in
  if truthy_str (PAYFAST_PASSPHRASE env)
  then signatureString +:+ "&passphrase="
       +:+ encodeURIComponent (js_string (PAYFAST_PASSPHRASE env))
  else signatureString.

Definition verifyPayfastSignature (env : Env) (data : Object)
  (receivedSignature : option string) : bool :=
  match receivedSignature with
  | Some received => String.eqb (MD5.hex (verifySignatureString env data)) received
  | None => false
  end.

Definition set_paymentResult (pr : PaymentResult) (o : Order) : Order :=
  {| o_id := o_id o; o_user := o_user o; o_items := o_items o;
     o_subtotal := o_subtotal o; o_shippingCost := o_shippingCost o;
     o_discount := o_discount o; o_totalAmount := o_totalAmount o;
     o_shippingAddress := o_shippingAddress o;
     o_paymentMethod := o_paymentMethod o;
     o_paymentResult := Some pr;
     o_couponUsed := o_couponUsed o; o_status := o_status o;
     o_deliveredAt := o_deliveredAt o; o_trackingId := o_trackingId o |}.

Definition set_status (st : string) (o : Order) : Order :=
  {| o_id := o_id o; o_user := o_user o; o_items := o_items o;
     o_subtotal := o_subtotal o; o_shippingCost := o_shippingCost o;
     o_discount := o_discount o; o_totalAmount := o_totalAmount o;
     o_shippingAddress := o_shippingAddress o;
     o_paymentMethod := o_paymentMethod o;
     o_paymentResult := o_paymentResult o;
     o_couponUsed := o_couponUsed o; o_status := st;
     o_deliveredAt := o_deliveredAt o; o_trackingId := o_trackingId o |}.

Definition set_trackingId (t : string) (o : Order) : Order :=
  {| o_id := o_id o; o_user := o_user o; o_items := o_items o;
     o_subtotal := o_subtotal o; o_shippingCost := o_shippingCost o;
     o_discount := o_discount o; o_totalAmount := o_totalAmount o;
     o_shippingAddress := o_shippingAddress o;
     o_paymentMethod := o_paymentMethod o;
     o_paymentResult := o_paymentResult o;
     o_couponUsed := o_couponUsed o; o_status := o_status o;
     o_deliveredAt := o_deliveredAt o; o_trackingId := Some t |}.

Definition set_deliveredAt (t : string) (o : Order) : Order :=
  {| o_id := o_id o; o_user := o_user o; o_items := o_items o;
     o_subtotal := o_subtotal o; o_shippingCost := o_shippingCost o;
     o_discount := o_discount o; o_totalAmount := o_totalAmount o;
     o_shippingAddress := o_shippingAddress o;
     o_paymentMethod := o_paymentMethod o;
     o_paymentResult := o_paymentResult o;
     o_couponUsed := o_couponUsed o; o_status := o_status o;
     o_deliveredAt := Some t; o_trackingId := o_trackingId o |}.

(** The validators of the order schema that [order.save()] runs on a new
    document: [paymentMethod] is required and one of ['COD', 'PayFast'],
    [totalAmount] is required, every [quantity] is at least 1. *)
Definition Order_validate (o : Order) : bool :=
  match o_paymentMethod o with
  | Some m => String.eqb m "COD" || String.eqb m "PayFast"
  | None => false
  end
  && truthy_obj (o_totalAmount o)
  && forallb (fun it => 1 <=? oi_quantity it) (o_items o).

(** The second half of [createOrder], from [validateOrderAmounts] on; it
    does not touch the products. *)
Definition finishOrder (env : Env) (_id : string) (db : DB)
  (user : option User) (body : Body) (orderItems : list OrderItem)
  (calculatedSubtotal : Z) : DB * Response :=
  let amounts := amounts_of body in
  if negb (validateOrderAmounts amounts calculatedSubtotal) then
    (db, Failed AmountMismatch)
  else
    match handleCoupon (b_couponCode body) user (coupons db) with
    | inl e => (db, Failed e)
    | inr coupon =>
        let order :=
          createOrderDocument _id orderItems
            (buildShippingAddress body (b_shippingAddress body))
            (b_paymentMethod body) amounts (u_id <$> user) coupon in
        let signed :=
          if bool_decide (b_paymentMethod body = Some "PayFast")
          then (fun pr => set_paymentResult pr order) <$> generatePayfastPayload env order
          else Some order in
        match signed with
        | None => (db, Failed ServerError)
        | Some order' =>
            if Order_validate order' then
              (with_orders db (<[_id := order']> (orders db)), Created order')
            else (db, Failed OrderValidation)
        end
    end.

(** [orderController.createOrder].  [_id] is the ObjectId drawn for the
    new order, [user] is [req.user]. *)
Definition createOrder (env : Env) (_id : string) (db : DB)
  (user : option User) (body : Body) : DB * Response :=
  match missingFields body with
  | _ :: _ => (db, Failed (ValidationError (missingFields body)))
  | [] =>
      match b_items body with
      | None | Some [] => (db, Failed NoItems)
      | Some items =>
          let found := Product_find (map i_id items) (products db) in
          match processOrderItems items found (products db) with
          | (ps, inl e) => (with_products db ps, Failed e)
          | (ps, inr (orderItems, calculatedSubtotal)) =>
              finishOrder env _id (with_products db ps) user body
                          orderItems calculatedSubtotal
          end
      end
  end.

(* ===================================================================== *)
(** ** Status changes and the payment webhook                            *)
(* ===================================================================== *)

Definition validStatuses : list string :=
  ["Processing"; "Shipped"; "Delivered"; "Cancelled"; "Tracking"].

Definition add_stock (q : Z) (p : Product) : Product :=
  set_stock (p_stock p + q) p.

(** [restoreStock]: one [$inc] per line item, applied in order by
    [Product.bulkWrite]; an item whose product is gone matches nothing. *)
Definition restoreStock (items : list OrderItem) (ps : gmap string Product)
  : gmap string Product :=
  fold_left (fun acc item => alter (add_stock (oi_quantity item)) (oi_product item) acc)
            items ps.

(** [handleStatusChange] up to the notification e-mail: the products
    after the restock and the in-memory order. *)
Definition handleStatusChange (now : string) (order : Order)
  (newStatus : string) (ps : gmap string Product)
  : gmap string Product * Order :=
  let ps' :=
    if String.eqb newStatus "Cancelled" then restoreStock (o_items order) ps
    else ps in
  let order' :=
    if String.eqb newStatus "Delivered" then set_deliveredAt now order
    else order in
  (ps', order').

(** [orderController.updateOrderStatus].  [findByIdAndUpdate] stores the
    new status (and the tracking id when one is sent) and returns the
    updated document; [deliveredAt] is set on that in-memory document
    only. *)
Definition updateOrderStatus (now : string) (db : DB) (id : string)
  (status trackingId : option string) : DB * Response :=
  match status with
  | None => (db, Failed InvalidStatus)
  | Some st =>
      if negb (existsb (String.eqb st) validStatuses) then
        (db, Failed InvalidStatus)
      else
        match orders db !! id with
        | None => (db, Failed OrderNotFound)
        | Some stored =>
            let order :=
              let o := set_status st stored in
              if truthy_str trackingId
              then set_trackingId (default "" trackingId) o else o in
            let db1 := with_orders db (<[id := order]> (orders db)) in
            let '(ps, order') := handleStatusChange now order st (products db1) in
            (with_products db1 ps, Updated order')
        end
  end.

(** [updateOrderFromPayment]; [now] is [new Date().toISOString()]. *)
Definition updateOrderFromPayment (now : string) (order : Order)
  (data : Object) : Order :=
  let order1 :=
    set_paymentResult
      {| pr_id := obj_get "pf_payment_id" data;
         pr_status := obj_get "payment_status" data;
         pr_update_time := Some now;
         pr_rawData := data;
         pr_redirectUrl := None |} order in
  if bool_decide (obj_get "payment_status" data = Some "COMPLETE") then
    set_status "Processing" order1
  else if bool_decide (obj_get "payment_status" data = Some "FAILED") then
    set_status "Cancelled" order1
  else order1.

(** [orderController.handlePayfastNotification]; [body] is [req.body]. *)
Definition handlePayfastNotification (env : Env) (now : string) (db : DB)
  (body : Object) : DB * Response :=
  let signature := obj_get "signature" body in
  let data := obj_delete "signature" body in
  if negb (verifyPayfastSignature env data signature) then
    (db, Failed InvalidSignature)
  else
    match obj_get "m_payment_id" data with
    | None => (db, Failed OrderNotFound)
    | Some id =>
        match orders db !! id with
        | None => (db, Failed OrderNotFound)
        | Some order =>
            (with_orders db (<[id := updateOrderFromPayment now order data]> (orders db)),
             Acknowledged)
        end
    end.

(** A notification delivered once per clock reading of [clock]. *)
Definition replayNotification (env : Env) (body : Object) (clock : list string)
  (db : DB) : DB :=
  fold_left (fun acc now => fst (handlePayfastNotification env now acc body)) clock db.

(* ===================================================================== *)
(** ** Requests served one after another, and interleaved                *)
(* ===================================================================== *)

Record Request := mkRequest {
  r_id : string;
  r_user : option User;
  r_body : Body
}.

(** Requests served one after another: the final store and the responses
    in order. *)
Fixpoint serve (env : Env) (reqs : list Request) (db : DB)
  : DB * list Response :=
  match reqs with
  | [] => (db, [])
  | r :: rest =>
      let '(db1, resp) := createOrder env (r_id r) db (r_user r) (r_body r) in
      let '(db2, resps) := serve env rest db1 in
      (db2, resp :: resps)
  end.

(** The units of product [p] among request items / order items. *)
Definition demand (p : string) (items : list Item) : Z :=
  fold_right (fun it acc => (if String.eqb (i_id it) p then i_quantity it else 0) + acc)
             0 items.

Definition restocked (p : string) (items : list OrderItem) : Z :=
  fold_right (fun it acc => (if String.eqb (oi_product it) p then oi_quantity it else 0) + acc)
             0 items.

(** The decrement of [p] that a response commits: the units of [p] of the
    order it created. *)
Definition committed (p : string) (r : Response) : Z :=
  match r with
  | Created o => restocked p (o_items o)
  | _ => 0
  end.

Definition total_committed (p : string) (rs : list Response) : Z :=
  fold_right (fun r acc => committed p r + acc) 0 rs.

Definition stock_of (ps : gmap string Product) (p : string) : option Z :=
  p_stock <$> ps !! p.

Module Interleaving.

(** Where a [createOrder] call stands between two database operations. *)
Inductive Thread :=
| Pending (r : Request)
| InLoop (r : Request) (rest : list Item) (found : gmap string Product)
         (orderItems : list OrderItem) (calculatedSubtotal : Z)
| Finished (resp : Response).

(** The code of one call up to its next database operation, and that
    operation: [Product.find], one [product.save()], or the tail of the
    handler (which reads coupons and writes the order, never a
    product). *)
Definition step_thread (env : Env) (db : DB) (t : Thread) : DB * Thread :=
  match t with
  | Pending r =>
      match missingFields (r_body r) with
      | _ :: _ => (db, Finished (Failed (ValidationError (missingFields (r_body r)))))
      | [] =>
          match b_items (r_body r) with
          | None | Some [] => (db, Finished (Failed NoItems))
          | Some items =>
              (db, InLoop r items (Product_find (map i_id items) (products db)) [] 0)
          end
      end
  | InLoop r [] found orderItems calculatedSubtotal =>
      let '(db', resp) :=
        finishOrder env (r_id r) db (r_user r) (r_body r) orderItems calculatedSubtotal in
      (db', Finished resp)
  | InLoop r (item :: rest) found orderItems calculatedSubtotal =>
      match processItem item found (products db) with
      | inl e => (db, Finished (Failed e))
      | inr (found', ps', oi, amount) =>
          (with_products db ps',
           InLoop r rest found' (orderItems ++ [oi]) (calculatedSubtotal + amount))
      end
  | Finished _ => (db, t)
  end.

Definition State : Type := DB * list Thread.

(** The scheduler lets thread [i] take its next step. *)
Definition step (env : Env) (st : State) (i : nat) : State :=
  match snd st !! i with
  | None => st
  | Some t =>
      let '(db', t') := step_thread env (fst st) t in
      (db', <[i := t']> (snd st))
  end.

Definition run (env : Env) (schedule : list nat) (st : State) : State :=
  fold_left (step env) schedule st.

Definition start (db : DB) (reqs : list Request) : State :=
  (db, map Pending reqs).

Definition response_of (t : Thread) : option Response :=
  match t with
  | Finished r => Some r
  | _ => None
  end.

(** The responses of the calls that have answered. *)
Definition responses (st : State) : list Response :=
  omap response_of (snd st).

End Interleaving.

(* ===================================================================== *)
(** ** The stock ledger: what [processOrderItems] writes                 *)
(* ===================================================================== *)

Definition nonneg_stock (ps : gmap string Product) : Prop :=
  ∀ k p, ps !! k = Some p → 0 ≤ p_stock p.

Definition nonneg_quantities (items : list Item) : Prop :=
  Forall (fun it => 0 ≤ i_quantity it) items.

Lemma set_stock_set_stock v w p : set_stock v (set_stock w p) = set_stock v p.
Proof. reflexivity. Qed.

Lemma set_stock_same p : set_stock (p_stock p) p = p.
Proof. by destruct p. Qed.

Lemma with_products_same db : with_products db (products db) = db.
Proof. by destruct db. Qed.

Lemma Product_find_lookup ids (ps : gmap string Product) k :
  k ∈ ids → Product_find ids ps !! k = ps !! k.
Proof.
  intros Hin. unfold Product_find.
  destruct (ps !! k) as [p|] eqn:E.
  - apply map_lookup_filter_Some. by split.
  - apply map_lookup_filter_None. left. done.
Qed.

(** While the in-memory documents agree with the store, [product.save()]
    replaces the stored document by the in-memory one. *)
Lemma Product_save_insert (ps : gmap string Product) id product q :
  ps !! id = Some product →
  Product_save id (set_stock (p_stock product - q) product) (negb (q =? 0)) ps
  = <[id := set_stock (p_stock product - q) product]> ps.
Proof.
  intros Hps. unfold Product_save.
  destruct (Z.eqb_spec q 0) as [->|Hq]; simpl.
  - rewrite Z.sub_0_r, set_stock_same. symmetry. by apply insert_id.
  - apply map_eq. intros k. rewrite lookup_alter, lookup_insert.
    case_decide; subst; [by rewrite Hps | done].
Qed.

Lemma processItem_inr item (found ps : gmap string Product) found' ps' oi amount :
  processItem item found ps = inr (found', ps', oi, amount) →
  ∃ product,
    found !! i_id item = Some product ∧
    i_quantity item ≤ p_stock product ∧
    found' = <[i_id item := set_stock (p_stock product - i_quantity item) product]> found ∧
    ps' = Product_save (i_id item)
            (set_stock (p_stock product - i_quantity item) product)
            (negb (i_quantity item =? 0)) ps ∧
    oi = mkOrderItem (i_id item) (p_name product) (i_quantity item)
                     (p_price product) (p_image product) ∧
    amount = p_price product * i_quantity item.
Proof.
  unfold processItem. destruct (found !! i_id item) as [product|]; [|done].
  destruct (Z.ltb_spec (p_stock product) (i_quantity item)); [done|].
  intros [= <- <- <- <-]. exists product. repeat split; auto.
Qed.

(** The write of one loop turn never stores a negative stock, whatever the
    in-memory documents hold. *)
Lemma processItem_nonneg item (found ps : gmap string Product) found' ps' oi amount :
  processItem item found ps = inr (found', ps', oi, amount) →
  nonneg_stock ps → nonneg_stock ps'.
Proof.
  intros H Hnn. apply processItem_inr in H as (product & _ & Hle & _ & -> & _).
  unfold Product_save. destruct (negb _); [|done].
  intros k p. rewrite lookup_alter. case_decide; [subst|by apply Hnn].
  destruct (ps !! i_id item); simpl; [|done].
  intros [= <-]. simpl. lia.
Qed.

Lemma demand_nonneg p items : nonneg_quantities items → 0 ≤ demand p items.
Proof.
  induction 1 as [|it items Hq _ IH]; simpl; [done|].
  destruct (String.eqb _ _); lia.
Qed.

(** The item [bad], met after the items [pre], makes the loop throw [e]:
    its product is not stored, or what is left of its stock is less than
    the quantity asked. *)
Definition throws (ps : gmap string Product) (pre : list Item) (bad : Item)
  (e : Error) : Prop :=
  match ps !! i_id bad with
  | None => e = ProductNotFound (i_id bad)
  | Some p =>
      p_stock p - demand (i_id bad) pre < i_quantity bad ∧
      e = InsufficientStock (p_name p) (p_stock p - demand (i_id bad) pre)
  end.

(** Where a run of the loop over [items] stops: the items it went through
    and the error that stopped it, if any. *)
Inductive LoopRun (ps : gmap string Product) (items : list Item)
  : list Item → option Error → Prop :=
| LoopDone : LoopRun ps items items None
| LoopThrew pre bad post e :
    items = (pre ++ bad :: post)%list → throws ps pre bad e →
    LoopRun ps items pre (Some e).

Definition loop_error {A} (r : Error + A) : option Error :=
  match r with
  | inl e => Some e
  | inr _ => None
  end.

(** The order item is the snapshot of the request item's product. *)
Definition snapshot_of (ps : gmap string Product) (it : Item) (oi : OrderItem)
  : Prop :=
  oi_product oi = i_id it ∧ oi_quantity oi = i_quantity it ∧
  ∃ p, ps !! i_id it = Some p ∧ oi_price oi = p_price p ∧ oi_name oi = p_name p.

(** [price * quantity] summed over order items. *)
Definition items_total (ois : list OrderItem) : Z :=
  fold_right (fun oi acc => oi_price oi * oi_quantity oi + acc) 0 ois.

Lemma lookup_set_stock_id (ps : gmap string Product) k :
  (fun p => set_stock (p_stock p - 0) p) <$> ps !! k = ps !! k.
Proof.
  destruct (ps !! k) as [p|]; simpl; [|done].
  by rewrite Z.sub_0_r, set_stock_same.
Qed.

(** The loop on documents that agree with the store: every stored product
    has lost the quantities of the items the loop went through, nothing
    else has changed, and the loop stops only at an item that [throws]. *)
Lemma processOrderItems_from_store items :
  ∀ (found ps : gmap string Product) orderItems sub ps' res,
    (∀ it, it ∈ items → found !! i_id it = ps !! i_id it) →
    processOrderItems_from items found ps orderItems sub = (ps', res) →
    ∃ pre,
      LoopRun ps items pre (loop_error res) ∧
      (∀ k, ps' !! k = (fun p => set_stock (p_stock p - demand k pre) p) <$> ps !! k) ∧
      (∀ ois c, res = inr (ois, c) →
         ∃ new, ois = (orderItems ++ new)%list ∧
                Forall2 (snapshot_of ps) items new ∧
                c = sub + items_total new).
Proof.
  induction items as [|item rest IH]; intros found ps orderItems sub ps' res Hagree; simpl.
  - intros [= <- <-]. exists []. split; [constructor|]. split.
    + intros k. simpl. by rewrite lookup_set_stock_id.
    + intros ois c [= <- <-]. exists []. rewrite app_nil_r. simpl.
      repeat split; [constructor|lia].
  - assert (Hitem : found !! i_id item = ps !! i_id item)
      by (apply Hagree; left).
    destruct (processItem item found ps) as [e|[[[found1 ps1] oi] amount]] eqn:E.
    + intros [= <- <-]. exists []. split; [|split; [|done]].
      * apply (LoopThrew _ _ [] item rest e); [done|].
        unfold throws, processItem in *. rewrite <- Hitem. simpl.
        destruct (found !! i_id item) as [p|]; [|congruence].
        rewrite Z.sub_0_r.
        destruct (Z.ltb_spec (p_stock p) (i_quantity item)); [|done].
        split; [done|congruence].
      * intros k. simpl. by rewrite lookup_set_stock_id.
    + intros Hrec.
      apply processItem_inr in E as (product & Hf & Hle & -> & -> & -> & ->).
      assert (Hps : ps !! i_id item = Some product) by congruence.
      rewrite (Product_save_insert _ _ _ _ Hps) in Hrec.
      apply IH in Hrec as (pre & Hrun & Hlook & Hois).
      2:{ intros it Hit. rewrite !lookup_insert. case_decide; [done|].
          apply Hagree. by right. }
      set (product' := set_stock (p_stock product - i_quantity item) product) in *.
      assert (Hvia : ∀ k,
                 match <[i_id item := product']> ps !! k with
                 | Some p1 => ∃ p, ps !! k = Some p ∧ p_name p1 = p_name p
                              ∧ p_price p1 = p_price p
                              ∧ p_stock p1 = p_stock p
                                  - (if String.eqb (i_id item) k then i_quantity item else 0)
                 | None => ps !! k = None
                 end).
      { intros k. rewrite lookup_insert.
        destruct (String.eqb_spec (i_id item) k) as [<-|Hne].
        - rewrite decide_True by done. exists product. by rewrite Hps.
        - rewrite decide_False by done. destruct (ps !! k) as [p|]; [|done].
          exists p. repeat split; lia. }
      exists (item :: pre). split; [|split].
      * destruct res as [e|[ois c]]; simpl in *; inversion Hrun; subst.
        -- eapply (LoopThrew _ _ (item :: pre)); [done|].
           unfold throws in *. specialize (Hvia (i_id bad)).
           destruct (<[i_id item := product']> ps !! i_id bad) as [p1|].
           ++ destruct Hvia as (p & -> & Hn & _ & Hs). simpl.
              rewrite <- Hn. replace (p_stock p - _) with (p_stock p1 - demand (i_id bad) pre) by lia.
              done.
           ++ by rewrite Hvia.
        -- constructor.
      * intros k. rewrite Hlook, lookup_insert. simpl.
        destruct (String.eqb_spec (i_id item) k) as [<-|Hne].
        -- rewrite decide_True by done. rewrite Hps. simpl.
           subst product'. rewrite set_stock_set_stock. f_equal; f_equal; simpl; lia.
        -- rewrite decide_False by done.
           destruct (ps !! k); simpl; [|done]. f_equal; f_equal; lia.
      * intros ois c Hres. destruct (Hois ois c Hres) as (new & -> & HF & ->).
        eexists (_ :: new). rewrite <- app_assoc. split; [done|]. split.
        -- constructor.
           ++ repeat split; simpl; eauto.
           ++ eapply Forall2_impl; [exact HF|].
              intros it oi (? & ? & p1 & Hp1 & ? & ?). repeat split; auto.
              specialize (Hvia (i_id it)). rewrite Hp1 in Hvia.
              destruct Hvia as (p & ? & ? & ? & _). exists p. repeat split; congruence.
        -- simpl. lia.
Qed.

Lemma restocked_snapshot ps k items ois :
  Forall2 (snapshot_of ps) items ois → restocked k ois = demand k items.
Proof.
  induction 1 as [|it oi items ois (Hp & Hq & _) _ IH]; simpl; [done|].
  by rewrite Hp, Hq, IH.
Qed.

(** The products asked for are the ones [Product.find] returned. *)
Lemma Product_find_agree (items : list Item) (ps : gmap string Product) :
  ∀ it, it ∈ items → Product_find (map i_id items) ps !! i_id it = ps !! i_id it.
Proof.
  intros it Hit. apply Product_find_lookup.
  apply list_elem_of_fmap. by exists it.
Qed.

(** ** What the tail of [createOrder] does *)

Lemma finishOrder_keeps env _id db user body ois c :
  products (fst (finishOrder env _id db user body ois c)) = products db ∧
  coupons (fst (finishOrder env _id db user body ois c)) = coupons db.
Proof.
  unfold finishOrder.
  destruct (negb _); [done|].
  destruct (handleCoupon _ _ _) as [e|coupon]; [done|].
  destruct (if bool_decide _ then _ else _) as [order'|]; [|done].
  destruct (Order_validate order'); done.
Qed.

Lemma finishOrder_Failed env _id db user body ois c db' e :
  finishOrder env _id db user body ois c = (db', Failed e) →
  db' = db ∧
  (e = AmountMismatch ∨ e = CouponRequiresAuth ∨ e = CouponInvalid ∨
   e = ServerError ∨ e = OrderValidation).
Proof.
  unfold finishOrder.
  destruct (negb _); [intros [= <- <-]; auto|].
  destruct (handleCoupon _ _ _) as [e'|coupon] eqn:Hc.
  - intros [= <- <-]. split; [done|].
    unfold handleCoupon in Hc. destruct (negb _); [done|].
    destruct user; [|injection Hc as <-; auto].
    destruct (_ !! _); [done|]. injection Hc as <-; auto.
  - destruct (if bool_decide _ then _ else _) as [order'|]; [|intros [= <- <-]; auto 6].
    destruct (Order_validate order'); [done|]. intros [= <- <-]; auto 6.
Qed.

Lemma finishOrder_Created env _id db user body ois c db' o :
  finishOrder env _id db user body ois c = (db', Created o) →
  db' = with_orders db (<[_id := o]> (orders db)) ∧
  validateOrderAmounts (amounts_of body) c = true ∧
  Order_validate o = true ∧
  o_items o = ois ∧
  o_subtotal o = b_subtotal body ∧
  o_shippingCost o = b_shippingCost body ∧
  o_discount o = default 0 (b_discount body) ∧
  o_totalAmount o = b_totalAmount body ∧
  o_status o = "Processing".
Proof.
  unfold finishOrder.
  destruct (validateOrderAmounts _ _); simpl; [|done].
  destruct (handleCoupon _ _ _) as [e'|coupon]; [done|].
  case_bool_decide.
  - destruct (generatePayfastPayload _ _) as [pr|]; simpl; [|done].
    destruct (Order_validate _) eqn:Hv; [|done].
    intros [= <- <-]. by repeat split.
  - destruct (Order_validate _) eqn:Hv; [|done].
    intros [= <- <-]. by repeat split.
Qed.

Lemma validateOrderAmounts_true amounts c :
  validateOrderAmounts amounts c = true ↔
  ∃ t s d, totalAmount amounts = Some t ∧ shippingCost amounts = Some s ∧
           discount amounts = Some d ∧ t = c + s - d.
Proof.
  unfold validateOrderAmounts, calculatedTotal. split.
  - destruct (totalAmount amounts) as [t|]; [|done].
    destruct (shippingCost amounts) as [s|]; [|done].
    destruct (discount amounts) as [d|]; [|done].
    intros H%Z.eqb_eq. by exists t, s, d.
  - intros (t & s & d & -> & -> & -> & ->). apply Z.eqb_refl.
Qed.

(** ** What [createOrder] leaves in the store *)

Definition loop_errors (e : Error) : Prop :=
  (∃ i, e = ProductNotFound i) ∨ (∃ n a, e = InsufficientStock n a).

Lemma throws_loop_errors ps pre bad e : throws ps pre bad e → loop_errors e.
Proof.
  unfold throws, loop_errors. destruct (ps !! i_id bad) as [p|].
  - intros [_ ->]. right. eauto.
  - intros ->. left. eauto.
Qed.

(** The outcome of a creation attempt and the items whose decrement it
    committed. *)
Inductive Outcome (db : DB) (body : Body) (_id : string) (db' : DB)
  : Response → list Item → Prop :=
| OutInvalid :
    missingFields body ≠ [] → db' = db →
    Outcome db body _id db' (Failed (ValidationError (missingFields body))) []
| OutNoItems :
    missingFields body = [] → b_items body = None ∨ b_items body = Some [] →
    db' = db →
    Outcome db body _id db' (Failed NoItems) []
| OutThrew items pre bad post e :
    missingFields body = [] → b_items body = Some items →
    items = (pre ++ bad :: post)%list → throws (products db) pre bad e →
    orders db' = orders db →
    Outcome db body _id db' (Failed e) pre
| OutRejected items e :
    missingFields body = [] → b_items body = Some items → items ≠ [] →
    e = AmountMismatch ∨ e = CouponRequiresAuth ∨ e = CouponInvalid ∨
    e = ServerError ∨ e = OrderValidation →
    orders db' = orders db →
    Outcome db body _id db' (Failed e) items
| OutCreated items o :
    missingFields body = [] → b_items body = Some items → items ≠ [] →
    Forall2 (snapshot_of (products db)) items (o_items o) →
    validateOrderAmounts (amounts_of body) (items_total (o_items o)) = true →
    Order_validate o = true →
    o_subtotal o = b_subtotal body →
    o_totalAmount o = b_totalAmount body →
    o_shippingCost o = b_shippingCost body →
    o_discount o = default 0 (b_discount body) →
    orders db' = <[_id := o]> (orders db) →
    Outcome db body _id db' (Created o) items.

Lemma createOrder_outcome env _id db user body db' resp :
  createOrder env _id db user body = (db', resp) →
  ∃ done,
    Outcome db body _id db' resp done ∧
    coupons db' = coupons db ∧
    ∀ k, products db' !! k
         = (fun p => set_stock (p_stock p - demand k done) p) <$> products db !! k.
Proof.
  unfold createOrder.
  destruct (missingFields body) as [|m ms] eqn:Hm.
  2:{ intros [= <- <-]. exists []. rewrite <- Hm. split; [|split; [done|]].
      - constructor; [by rewrite Hm|done].
      - intros k. simpl. by rewrite lookup_set_stock_id. }
  destruct (b_items body) as [[|item rest]|] eqn:Hitems.
  1,3: intros [= <- <-]; exists []; (split; [|split; [done|]]);
       [constructor; auto| intros k; simpl; by rewrite lookup_set_stock_id ..].
  set (items := item :: rest) in *.
  unfold processOrderItems.
  destruct (processOrderItems_from items _ _ _ _) as [ps res] eqn:Hloop.
  apply processOrderItems_from_store in Hloop as (pre & Hrun & Hlook & Hois);
    [|apply Product_find_agree].
  destruct res as [e|[ois c]]; simpl in Hrun.
  - intros [= <- <-]. exists pre. split; [|split; [done|exact Hlook]].
    inversion Hrun; subst. by eapply OutThrew.
  - inversion Hrun; subst. destruct (Hois ois c eq_refl) as (new & -> & HF & ->).
    simpl in *.
    pose proof (finishOrder_keeps env _id (with_products db ps) user body new
                                  (0 + items_total new)) as [Hp Hc].
    destruct (finishOrder _ _ _ _ _ _ _) as [db1 resp1] eqn:Hfin.
    intros [= <- <-]. simpl in *. exists items.
    split; [|split; [done|by rewrite Hp]].
    destruct resp1 as [o|o| |e].
    + apply finishOrder_Created in Hfin
        as (-> & Hv & Hov & Hi & Hs & Hsh & Hd & Ht & _).
      subst new. rewrite Z.add_0_l in Hv.
      by eapply OutCreated.
    + exfalso. revert Hfin. unfold finishOrder.
      repeat (case_match; try done).
    + exfalso. revert Hfin. unfold finishOrder.
      repeat (case_match; try done).
    + apply finishOrder_Failed in Hfin as [-> He].
      by eapply OutRejected.
Qed.

(* ===================================================================== *)
(** ** A small shop, used to run the controller on concrete requests     *)
(* ===================================================================== *)

Module Shop.

Definition env : Env :=
  {| PAYFAST_MERCHANT_ID := Some "10000100";
     PAYFAST_MERCHANT_KEY := Some "46f0cd694581a";
     PAYFAST_RETURN_URL := Some "https://shop.test/ok";
     PAYFAST_CANCEL_URL := Some "https://shop.test/cancel";
     PAYFAST_NOTIFY_URL := Some "https://shop.test/notify";
     PAYFAST_PASSPHRASE := None;
     PAYFAST_URL := Some "https://sandbox.payfast.co.za/eng/process" |}.

(** The same merchant with a passphrase configured. *)
Definition env_secret : Env :=
  {| PAYFAST_MERCHANT_ID := PAYFAST_MERCHANT_ID env;
     PAYFAST_MERCHANT_KEY := PAYFAST_MERCHANT_KEY env;
     PAYFAST_RETURN_URL := PAYFAST_RETURN_URL env;
     PAYFAST_CANCEL_URL := PAYFAST_CANCEL_URL env;
     PAYFAST_NOTIFY_URL := PAYFAST_NOTIFY_URL env;
     PAYFAST_PASSPHRASE := Some "secret";
     PAYFAST_URL := PAYFAST_URL env |}.

(** Flask A: price 100, 3 in stock.  Flask B: price 40, 1 in stock. *)
Definition db : DB :=
  {| products :=
       <["a" := mkProduct "Flask A" 100 3 None]>
         (<["b" := mkProduct "Flask B" 40 1 None]> ∅);
     orders := ∅;
     coupons := <["SAVE10" := "c1"]> ∅ |}.

Definition address : Address :=
  {| a_address := Some "1 Main Rd"; a_city := Some "Lahore";
     a_postalCode := None; a_country := None |}.

(** A cash-on-delivery request with every contact field filled in. *)
Definition body (items : list Item) (sub ship disc total : option Z)
  (code : option string) : Body :=
  {| b_email := Some "x@y.z"; b_phone := Some "0300"; b_name := Some "X";
     b_subtotal := sub; b_shippingCost := ship; b_discount := disc;
     b_totalAmount := total; b_shippingAddress := Some address;
     b_items := Some items; b_paymentMethod := Some "COD";
     b_couponCode := code |}.

(** One Flask A, shipping 10, discount 5, with the total declared. *)
Definition one_flask (total : Z) : Body :=
  body [mkItem "a" 1] (Some 100) (Some 10) (Some 5) (Some total) None.

(** Two Flasks A; correct amounts. *)
Definition two_flasks : Body :=
  body [mkItem "a" 2] (Some 200) (Some 10) (Some 5) (Some 205) None.

Definition customer : User := {| u_id := "u1"; u_role := "user" |}.

End Shop.

(* ===================================================================== *)
(** ** Required fields and the amount check                              *)
(* ===================================================================== *)

Lemma missingFields_elem body field :
  field ∈ requiredFields → body_truthy body field = false →
  field ∈ missingFields body.
Proof.
  intros Hin Hf. unfold missingFields.
  apply list_elem_of_In, filter_In. split; [by apply list_elem_of_In|].
  by rewrite Hf.
Qed.

Lemma createOrder_missing env _id db user body field :
  field ∈ missingFields body →
  createOrder env _id db user body
  = (db, Failed (ValidationError (missingFields body))).
Proof.
  intros Hin. unfold createOrder.
  destruct (missingFields body); [by apply elem_of_nil in Hin|done].
Qed.

(** C10.  The required-field check of [createOrder] treats a falsy value
    as a missing one: a request whose [subtotal], [shippingCost] or
    [totalAmount] is 0 is answered 400 with the missing-required-fields
    message naming that field, the store is left as it was, and so no
    order with a zero shipping cost is ever created. *)
Theorem createOrder_zero_amount_rejected env _id db user body :
  b_subtotal body = Some 0 ∨ b_shippingCost body = Some 0 ∨
  b_totalAmount body = Some 0 →
  ∃ ms,
    createOrder env _id db user body = (db, Failed (ValidationError ms)) ∧
    status_code (Failed (ValidationError ms)) = 400 ∧
    (b_subtotal body = Some 0 → "subtotal" ∈ ms) ∧
    (b_shippingCost body = Some 0 → "shippingCost" ∈ ms) ∧
    (b_totalAmount body = Some 0 → "totalAmount" ∈ ms) ∧
    (b_shippingCost body = Some 0 →
     ∀ o, snd (createOrder env _id db user body) ≠ Created o).
Proof.
  intros Hzero. exists (missingFields body).
  assert (Hsub : b_subtotal body = Some 0 → "subtotal" ∈ missingFields body).
  { intros H. apply missingFields_elem; [apply list_elem_of_In; simpl; tauto|].
    unfold body_truthy. simpl. by rewrite H. }
  assert (Hship : b_shippingCost body = Some 0 → "shippingCost" ∈ missingFields body).
  { intros H. apply missingFields_elem; [apply list_elem_of_In; simpl; tauto|].
    unfold body_truthy. simpl. by rewrite H. }
  assert (Htot : b_totalAmount body = Some 0 → "totalAmount" ∈ missingFields body).
  { intros H. apply missingFields_elem; [apply list_elem_of_In; simpl; tauto|].
    unfold body_truthy. simpl. by rewrite H. }
  assert (Hany : ∃ f, f ∈ missingFields body)
    by (destruct Hzero as [H|[H|H]]; eauto).
  destruct Hany as [f Hf].
  rewrite (createOrder_missing _ _ _ _ _ _ Hf).
  repeat split; auto.
Qed.

Lemma createOrder_zero_amount_rejected_witness :
  ∃ ms,
    createOrder Shop.env "o1" Shop.db None
      (Shop.body [mkItem "a" 1] (Some 100) (Some 0) (Some 0) (Some 100) None)
    = (Shop.db, Failed (ValidationError ms)) ∧ "shippingCost" ∈ ms.
Proof.
  destruct (createOrder_zero_amount_rejected Shop.env "o1" Shop.db None
              (Shop.body [mkItem "a" 1] (Some 100) (Some 0) (Some 0) (Some 100) None))
    as (ms & Heq & _ & _ & Hship & _).
  - right. left. reflexivity.
  - exists ms. split; [exact Heq|]. apply Hship. reflexivity.
Defined.



(* ===================================================================== *)
(** ** The amounts of a persisted order                                  *)
(* ===================================================================== *)

(** What the amount check guarantees on a created order: the stored total
    is the recomputed subtotal plus shipping minus discount, while the
    stored subtotal is the one the client declared. *)
Lemma createOrder_persisted_amounts env _id db user body db' o :
  createOrder env _id db user body = (db', Created o) →
  orders db' !! _id = Some o ∧
  o_subtotal o = b_subtotal body ∧
  ∃ s, o_shippingCost o = Some s ∧
       o_totalAmount o = Some (items_total (o_items o) + s - o_discount o).
Proof.
  intros H. apply createOrder_outcome in H as (done & Hout & _ & _).
  inversion Hout as [| | | |items o' _ _ _ _ Hv _ Hs Ht Hsh Hd Ho]; subst.
  split; [by rewrite Ho, lookup_insert_eq|]. split; [done|].
  apply validateOrderAmounts_true in Hv as (t & s & d & Ht' & Hs' & Hd' & ->).
  simpl in *. exists s. rewrite Hsh, Ht, Hd, Hd'. by split.
Qed.

(** C3.  [createOrder] on one Flask A (stored price 100) with shipping 10,
    discount 5, a declared total of 105 and a declared subtotal of 50: the
    order is created and persisted with [subtotal] 50, the client's value,
    not the recomputed 100, so the persisted record has
    [totalAmount <> subtotal + shippingCost - discount]. *)
Theorem createOrder_persists_declared_subtotal :
  let body := Shop.body [mkItem "a" 1] (Some 50) (Some 10) (Some 5) (Some 105) None in
  let '(db', resp) := createOrder Shop.env "o1" Shop.db None body in
  ∃ o, resp = Created o ∧ orders db' !! "o1" = Some o ∧
       items_total (o_items o) = 100 ∧
       o_subtotal o = Some 50 ∧ o_shippingCost o = Some 10 ∧
       o_discount o = 5 ∧ o_totalAmount o = Some 105 ∧
       105 ≠ 50 + 10 - 5.
Proof.
  vm_compute. eexists. repeat split; try reflexivity. discriminate.
Qed.

(* ===================================================================== *)
(** ** A failed attempt keeps the decrements it made                     *)
(* ===================================================================== *)

(** C2, as stated, fails: two Flasks A and three Flasks B are asked for,
    one Flask B is in stock.  The attempt fails on the second item with the
    insufficient-stock error and Flask A stays at 1, two below the 3 it had
    before the attempt. *)
Lemma createOrder_no_rollback_counterexample :
  let body := Shop.body [mkItem "a" 2; mkItem "b" 3]
                        (Some 320) (Some 10) (Some 5) (Some 325) None in
  let '(db', resp) := createOrder Shop.env "o1" Shop.db None body in
  resp = Failed (InsufficientStock "Flask B" 1) ∧
  stock_of (products Shop.db) "a" = Some 3 ∧
  stock_of (products db') "a" = Some 1 ∧
  stock_of (products db') "a" ≠ stock_of (products Shop.db) "a".
Proof.
  vm_compute. repeat split; discriminate.
Qed.

(** C2, amended.  When a creation attempt fails at a line item (product
    not found, or less stock left than asked), no order is stored and the
    decrements of the items before it stay: every product's stock is its
    value before the attempt minus the quantities of the line items that
    precede the failing one, so the stock is as before only where no
    earlier item asked for the product. *)
Theorem createOrder_failure_keeps_decrements env _id db user body db' e :
  createOrder env _id db user body = (db', Failed e) →
  loop_errors e →
  ∃ items pre bad post,
    b_items body = Some items ∧ items = (pre ++ bad :: post)%list ∧
    throws (products db) pre bad e ∧
    orders db' = orders db ∧
    (∀ k, stock_of (products db') k
          = (fun s => s - demand k pre) <$> stock_of (products db) k) ∧
    (pre = [] → products db' = products db).
Proof.
  intros H He. apply createOrder_outcome in H as (done & Hout & _ & Hlook).
  assert (Hstock : ∀ k, stock_of (products db') k
                        = (fun s => s - demand k done) <$> stock_of (products db) k).
  { intros k. unfold stock_of. rewrite Hlook.
    by destruct (products db !! k). }
  inversion Hout as [Hm Hdb|Hm Hi Hdb|items pre bad post e' Hm Hi Heq Hth Ho
                     |items e' Hm Hi Hne Hrej Ho|]; simplify_eq.
  - destruct He as [[? ?]|(? & ? & ?)]; done.
  - destruct He as [[? ?]|(? & ? & ?)]; done.
  - exists (done ++ bad :: post)%list, done, bad, post. repeat split; auto.
    intros ->. apply map_eq. intros k. rewrite Hlook. simpl.
    apply lookup_set_stock_id.
  - destruct He as [[? ->]|(? & ? & ->)];
      destruct Hrej as [?|[?|[?|[?|?]]]]; done.
Qed.

Lemma createOrder_failure_keeps_decrements_witness :
  ∃ items pre bad post,
    Some [mkItem "a" 2; mkItem "b" 3] = Some items ∧
    items = (pre ++ bad :: post)%list ∧
    throws (products Shop.db) pre bad (InsufficientStock "Flask B" 1).
Proof.
  destruct (createOrder_failure_keeps_decrements Shop.env "o1" Shop.db None
              (Shop.body [mkItem "a" 2; mkItem "b" 3]
                         (Some 320) (Some 10) (Some 5) (Some 325) None)
              (fst (createOrder Shop.env "o1" Shop.db None
                      (Shop.body [mkItem "a" 2; mkItem "b" 3]
                                 (Some 320) (Some 10) (Some 5) (Some 325) None)))
              (InsufficientStock "Flask B" 1))
    as (items & pre & bad & post & Hi & Heq & Hth & _).
  - vm_compute. reflexivity.
  - right. by exists "Flask B", 1.
  - exists items, pre, bad, post. auto.
Defined.

(* ===================================================================== *)
(** ** A coupon on a guest checkout                                      *)
(* ===================================================================== *)

(** A signed-in customer's coupon code is looked up in upper case and its
    id is attached to the order. *)
Example createOrder_customer_coupon :
  let body := Shop.body [mkItem "a" 1] (Some 100) (Some 10) (Some 5) (Some 105)
                        (Some "save10") in
  ∃ o, snd (createOrder Shop.env "o1" Shop.db (Some Shop.customer) body) = Created o ∧
       o_couponUsed o = Some "c1" ∧ o_user o = Some "u1".
Proof. vm_compute. eexists. repeat split. Qed.

(** C7, as stated, fails: a guest asks for one Flask A with the coupon
    code [save10] and correct amounts.  The attempt fails with the
    authentication error of the coupon check, and Flask A has gone from 3
    to 2. *)
Lemma createOrder_guest_coupon_counterexample :
  let body := Shop.body [mkItem "a" 1] (Some 100) (Some 10) (Some 5) (Some 105)
                        (Some "save10") in
  let '(db', resp) := createOrder Shop.env "o1" Shop.db None body in
  resp = Failed CouponRequiresAuth ∧
  stock_of (products Shop.db) "a" = Some 3 ∧
  stock_of (products db') "a" = Some 2 ∧
  stock_of (products db') "a" ≠ stock_of (products Shop.db) "a".
Proof.
  vm_compute. repeat split; discriminate.
Qed.

Lemma finishOrder_guest_coupon env _id db body ois c :
  truthy_str (b_couponCode body) = true →
  finishOrder env _id db None body ois c
  = (db, Failed (if validateOrderAmounts (amounts_of body) c
                 then CouponRequiresAuth else AmountMismatch)).
Proof.
  intros Hc. unfold finishOrder, handleCoupon. rewrite Hc.
  by destruct (validateOrderAmounts _ _).
Qed.

(** C7, amended.  A creation request with a coupon code and no
    authenticated user never creates an order.  Unless an earlier check
    rejects it (missing fields, no items, a failing line item, the amount
    check), it fails with the authentication error of the coupon check;
    the line items have been processed by then, and their decrements stay:
    every product's stock is its value before the attempt minus the
    quantity the request asked of it. *)
Theorem createOrder_guest_coupon env _id db body db' resp :
  truthy_str (b_couponCode body) = true →
  createOrder env _id db None body = (db', resp) →
  ∃ e, resp = Failed e ∧ orders db' = orders db ∧
       ((∃ ms, e = ValidationError ms) ∨ e = NoItems ∨ loop_errors e ∨
        e = AmountMismatch ∨ e = CouponRequiresAuth) ∧
       (e = CouponRequiresAuth →
        ∃ items, b_items body = Some items ∧ items ≠ [] ∧
          ∀ k, stock_of (products db') k
               = (fun s => s - demand k items) <$> stock_of (products db) k).
Proof.
  intros Hc. unfold createOrder.
  destruct (missingFields body) as [|m ms] eqn:Hm.
  2:{ intros [= <- <-]. eexists. repeat split; eauto. done. }
  destruct (b_items body) as [[|item rest]|] eqn:Hitems.
  1,3: intros [= <- <-]; eexists; repeat split; eauto; done.
  set (items := item :: rest) in *. unfold processOrderItems.
  destruct (processOrderItems_from items _ _ _ _) as [ps res] eqn:Hloop.
  apply processOrderItems_from_store in Hloop as (pre & Hrun & Hlook & _);
    [|apply Product_find_agree].
  assert (Hstock : ∀ k, stock_of ps k
                        = (fun s => s - demand k pre) <$> stock_of (products db) k).
  { intros k. unfold stock_of. rewrite Hlook. by destruct (products db !! k). }
  destruct res as [e|[ois c]]; simpl in Hrun;
    inversion Hrun as [|? bad post ? Heq Hth]; subst.
  - intros [= <- <-]. exists e. repeat split; auto.
    + right. right. left. by eapply throws_loop_errors.
    + intros ->. by apply throws_loop_errors in Hth as [[? ?]|(? & ? & ?)].
  - rewrite finishOrder_guest_coupon by done. intros [= <- <-].
    exists (if validateOrderAmounts (amounts_of body) c
            then CouponRequiresAuth else AmountMismatch).
    split; [done|]. split; [done|]. split.
    + destruct (validateOrderAmounts _ _); auto 6.
    + intros _. exists items. by repeat split.
Qed.

Lemma createOrder_guest_coupon_witness :
  ∃ e, Failed CouponRequiresAuth = Failed e ∧
       (e = CouponRequiresAuth →
        ∃ items, Some [mkItem "a" 1] = Some items ∧ items ≠ []).
Proof.
  destruct (createOrder_guest_coupon Shop.env "o1" Shop.db
              (Shop.body [mkItem "a" 1] (Some 100) (Some 10) (Some 5) (Some 105)
                         (Some "save10"))
              (fst (createOrder Shop.env "o1" Shop.db None
                      (Shop.body [mkItem "a" 1] (Some 100) (Some 10) (Some 5)
                                 (Some 105) (Some "save10"))))
              (Failed CouponRequiresAuth))
    as (e & He & _ & _ & Hdec).
  - reflexivity.
  - vm_compute. reflexivity.
  - exists e. split; [exact He|]. intros Hauth.
    destruct (Hdec Hauth) as (items & Hi & Hne & _). eauto.
Defined.

(* ===================================================================== *)
(** ** Cancellation and the restock                                      *)
(* ===================================================================== *)

(** The Cancelled status update applied [n] times to one order. *)
Definition cancelTimes (n : nat) (now id : string) (trackingId : option string)
  (db : DB) : DB :=
  Nat.iter n (fun d => fst (updateOrderStatus now d id (Some "Cancelled") trackingId)) db.

Lemma cancelTimes_S n now id trackingId db :
  cancelTimes (S n) now id trackingId db
  = fst (updateOrderStatus now (cancelTimes n now id trackingId db) id
                           (Some "Cancelled") trackingId).
Proof. reflexivity. Qed.

Lemma add_stock_add_stock a b p : add_stock a (add_stock b p) = add_stock (b + a) p.
Proof. unfold add_stock. simpl. rewrite set_stock_set_stock. f_equal. lia. Qed.

Lemma restoreStock_lookup ois :
  ∀ (ps : gmap string Product) k,
    restoreStock ois ps !! k = add_stock (restocked k ois) <$> ps !! k.
Proof.
  unfold restoreStock.
  induction ois as [|oi rest IH]; intros ps k; simpl.
  - destruct (ps !! k) as [p|]; simpl; [|done].
    unfold add_stock. by rewrite Z.add_0_r, set_stock_same.
  - rewrite IH, lookup_alter.
    destruct (String.eqb_spec (oi_product oi) k) as [<-|Hne].
    + rewrite decide_True by done.
      destruct (ps !! oi_product oi); simpl; [|done].
      by rewrite add_stock_add_stock.
    + rewrite decide_False by done.
      destruct (ps !! k); simpl; [|done]. done.
Qed.

Lemma updateOrderStatus_Cancelled now db id trackingId o :
  orders db !! id = Some o →
  ∃ o', updateOrderStatus now db id (Some "Cancelled") trackingId
        = ({| products := restoreStock (o_items o) (products db);
              orders := <[id := o']> (orders db);
              coupons := coupons db |}, Updated o') ∧
        o_items o' = o_items o ∧ o_status o' = "Cancelled".
Proof.
  intros Ho. unfold updateOrderStatus, handleStatusChange. simpl. rewrite Ho.
  destruct (truthy_str trackingId); simpl; eexists; (split; [reflexivity|]); done.
Qed.

(** C6, as stated, fails: an order for two Flasks A takes the stock from 3
    to 1; the Cancelled update brings it back to 3, and applied again to
    the order, now Cancelled, it takes the stock to 5. *)
Lemma cancel_twice_counterexample :
  let db1 := fst (createOrder Shop.env "o1" Shop.db None Shop.two_flasks) in
  let db2 := fst (updateOrderStatus "t1" db1 "o1" (Some "Cancelled") None) in
  let db3 := fst (updateOrderStatus "t2" db2 "o1" (Some "Cancelled") None) in
  stock_of (products Shop.db) "a" = Some 3 ∧
  stock_of (products db1) "a" = Some 1 ∧
  stock_of (products db2) "a" = Some 3 ∧
  o_status <$> orders db2 !! "o1" = Some "Cancelled" ∧
  stock_of (products db3) "a" = Some 5.
Proof. vm_compute. repeat split; reflexivity. Qed.

(** C6, amended.  Cancelling a created order restores to each product
    exactly the quantity decremented for the order's line items: the
    products are as they were before the creation.  The update is not
    idempotent: each application of the Cancelled status to an order,
    Cancelled already or not, adds the quantities of its line items to the
    stock, so [n] applications add them [n] times. *)
Theorem cancel_restores_each_time env _id db user body db1 o :
  createOrder env _id db user body = (db1, Created o) →
  (∀ now trackingId,
     products (fst (updateOrderStatus now db1 _id (Some "Cancelled") trackingId))
     = products db) ∧
  (∀ n now trackingId k,
     stock_of (products (cancelTimes n now _id trackingId db1)) k
     = (fun s => s + Z.of_nat n * restocked k (o_items o)) <$> stock_of (products db1) k).
Proof.
  intros Hc. pose proof Hc as Hout.
  apply createOrder_persisted_amounts in Hc as [Ho _].
  apply createOrder_outcome in Hout as (done & Hout & _ & Hlook).
  split.
  - intros now tr.
    destruct (updateOrderStatus_Cancelled now db1 _id tr o Ho) as (o' & -> & _).
    simpl. apply map_eq. intros k. rewrite restoreStock_lookup, Hlook.
    inversion Hout as [| | | |items o0 _ _ _ HF]; subst.
    rewrite (restocked_snapshot _ k _ _ HF).
    destruct (products db !! k) as [p|]; simpl; [|done].
    unfold add_stock. simpl. rewrite set_stock_set_stock.
    replace (p_stock p - demand k done + demand k done) with (p_stock p) by lia.
    by rewrite set_stock_same.
  - intros n now tr k. clear Hlook Hout.
    assert (Hn : ∃ o', orders (cancelTimes n now _id tr db1) !! _id = Some o' ∧
                       o_items o' = o_items o ∧
                       stock_of (products (cancelTimes n now _id tr db1)) k
                       = (fun s => s + Z.of_nat n * restocked k (o_items o))
                           <$> stock_of (products db1) k).
    { induction n as [|n (o1 & Ho1 & Hi1 & IH)].
      - exists o. simpl. repeat split; auto.
        unfold stock_of. destruct (products db1 !! k); simpl; [|done].
        f_equal. lia.
      - rewrite cancelTimes_S.
        destruct (updateOrderStatus_Cancelled now _ _id tr o1 Ho1) as (o' & -> & Hi' & _).
        simpl. exists o'. split; [by rewrite lookup_insert_eq|].
        split; [congruence|].
        unfold stock_of in *. rewrite restoreStock_lookup, Hi1.
        destruct (products (cancelTimes n now _id tr db1) !! k) as [p|];
          destruct (products db1 !! k) as [p1|]; simpl in *; try done.
        injection IH as IH. f_equal. lia. }
    destruct Hn as (_ & _ & _ & H). exact H.
Qed.

Lemma cancel_restores_each_time_witness :
  stock_of (products (cancelTimes 2 "t" "o1" None
               (fst (createOrder Shop.env "o1" Shop.db None Shop.two_flasks)))) "a"
  = Some (1 + 2 * 2).
Proof.
  destruct (cancel_restores_each_time Shop.env "o1" Shop.db None Shop.two_flasks
              (fst (createOrder Shop.env "o1" Shop.db None Shop.two_flasks))
              (mkOrder "o1" None [mkOrderItem "a" "Flask A" 2 100 None]
                 (Some 200) (Some 10) 5 (Some 205)
                 (buildShippingAddress Shop.two_flasks (Some Shop.address))
                 (Some "COD") None None "Processing" None None))
    as [_ Hn].
  - vm_compute. reflexivity.
  - rewrite (Hn 2%nat "t" None "a"). vm_compute. reflexivity.
Defined.

(* ===================================================================== *)
(** ** The payment webhook                                               *)
(* ===================================================================== *)

(** What the gateway sends for order [id]: the fields and the signature
    that [verifyPayfastSignature] recomputes over them. *)
Definition notification (env : Env) (id payment_status : string) : Object :=
  let data := [("m_payment_id", id); ("pf_payment_id", "1089250");
               ("payment_status", payment_status)] in
  obj_set "signature" (MD5.hex (verifySignatureString env data)) data.

Lemma updateOrderFromPayment_again t1 t2 order data :
  updateOrderFromPayment t2 (updateOrderFromPayment t1 order data) data
  = updateOrderFromPayment t2 order data.
Proof.
  unfold updateOrderFromPayment. repeat case_bool_decide; reflexivity.
Qed.

Lemma updateOrderFromPayment_status now order data :
  (obj_get "payment_status" data = Some "COMPLETE" →
   o_status (updateOrderFromPayment now order data) = "Processing") ∧
  (obj_get "payment_status" data = Some "FAILED" →
   o_status (updateOrderFromPayment now order data) = "Cancelled") ∧
  o_items (updateOrderFromPayment now order data) = o_items order.
Proof.
  unfold updateOrderFromPayment.
  repeat split; try intros ->; simpl; repeat case_bool_decide; done.
Qed.

(** The webhook writes orders only. *)
Lemma handlePayfastNotification_products env now db body :
  products (fst (handlePayfastNotification env now db body)) = products db.
Proof.
  unfold handlePayfastNotification.
  repeat (case_match; try done).
Qed.

(** A second delivery overwrites what the first one wrote. *)
Lemma handlePayfastNotification_again env t1 t2 db body :
  handlePayfastNotification env t2 (fst (handlePayfastNotification env t1 db body)) body
  = handlePayfastNotification env t2 db body.
Proof.
  unfold handlePayfastNotification.
  destruct (negb _); [done|].
  destruct (obj_get "m_payment_id" _) as [id|]; [|done].
  destruct (orders db !! id) as [order|] eqn:Ho; simpl; [|by rewrite Ho].
  rewrite lookup_insert_eq, insert_insert_eq, updateOrderFromPayment_again.
  done.
Qed.

(** C4.  One payment notification delivered N >= 1 times, at the clock
    readings [clock ++ [now]], leaves the store as one delivery at [now]
    leaves it and gets the same answer; the products are never touched
    (no restock, no decrement), and only the order's status and
    payment-result snapshot are rewritten.  In particular N deliveries at
    the same clock reading equal one. *)
Theorem webhook_replay_idempotent env body clock now db :
  replayNotification env body (clock ++ [now]) db
  = fst (handlePayfastNotification env now db body) ∧
  snd (handlePayfastNotification env now (replayNotification env body clock db) body)
  = snd (handlePayfastNotification env now db body) ∧
  products (replayNotification env body (clock ++ [now]) db) = products db ∧
  coupons (replayNotification env body (clock ++ [now]) db) = coupons db ∧
  (∀ n, replayNotification env body (repeat now (S n)) db
        = fst (handlePayfastNotification env now db body)).
Proof.
  assert (Hlast : ∀ clock db,
             handlePayfastNotification env now (replayNotification env body clock db) body
             = handlePayfastNotification env now db body).
  { intros cl. induction cl as [|t cl IH]; intros d; simpl; [done|].
    unfold replayNotification in *. simpl. rewrite IH.
    apply handlePayfastNotification_again. }
  assert (Happ : ∀ clock db,
             replayNotification env body (clock ++ [now]) db
             = fst (handlePayfastNotification env now db body)).
  { intros cl d. unfold replayNotification at 1. rewrite fold_left_app. simpl.
    fold (replayNotification env body cl d). by rewrite Hlast. }
  split; [apply Happ|]. split; [by rewrite Hlast|].
  split; [rewrite Happ; apply handlePayfastNotification_products|].
  split.
  - rewrite Happ. unfold handlePayfastNotification.
    repeat (case_match; try done).
  - intros n. replace (repeat now (S n)) with (repeat now n ++ [now])%list.
    + apply Happ.
    + symmetry. apply repeat_cons.
Qed.

(** A delivery that changes the order: the notification of a completed
    payment for a stored order, delivered three times. *)
Example webhook_replay_complete :
  let db1 := fst (createOrder Shop.env "o1" Shop.db None Shop.two_flasks) in
  let body := notification Shop.env "o1" "COMPLETE" in
  let db3 := replayNotification Shop.env body ["t1"; "t2"; "t3"] db1 in
  snd (handlePayfastNotification Shop.env "t3" db1 body) = Acknowledged ∧
  db3 = fst (handlePayfastNotification Shop.env "t3" db1 body) ∧
  (o_paymentResult <$> orders db1 !! "o1") = Some None ∧
  (pr_update_time <$> (orders db3 !! "o1" ≫= o_paymentResult)) = Some (Some "t3").
Proof. vm_compute. repeat split; reflexivity. Qed.

(** The status the webhook gives an order it accepts a notification for,
    and what it leaves alone. *)
Lemma handlePayfastNotification_status env now db body db' :
  handlePayfastNotification env now db body = (db', Acknowledged) →
  ∃ id order order',
    orders db !! id = Some order ∧ orders db' !! id = Some order' ∧
    (obj_get "payment_status" (obj_delete "signature" body) = Some "COMPLETE" →
     o_status order' = "Processing") ∧
    (obj_get "payment_status" (obj_delete "signature" body) = Some "FAILED" →
     o_status order' = "Cancelled") ∧
    o_items order' = o_items order ∧
    products db' = products db.
Proof.
  unfold handlePayfastNotification.
  destruct (negb _); [done|].
  destruct (obj_get "m_payment_id" _) as [id|]; [|done].
  destruct (orders db !! id) as [order|] eqn:Ho; [|done].
  intros [= <-]. exists id, order. eexists. simpl.
  split; [done|]. split; [by rewrite lookup_insert_eq|].
  pose proof (updateOrderFromPayment_status now order (obj_delete "signature" body))
    as (? & ? & ?).
  by repeat split.
Qed.

(** C5.  The order "o1" for two Flasks A has taken the stock from 3 to 1.
    The gateway's notification that its payment FAILED is accepted and the
    order becomes Cancelled, but the two units are not restored: Flask A
    stays at 1, where the Cancelled update of [updateOrderStatus] brings
    it back to 3.  A COMPLETE notification leaves the order Processing. *)
Theorem webhook_failed_does_not_restock :
  let db1 := fst (createOrder Shop.env "o1" Shop.db None Shop.two_flasks) in
  let '(db2, resp) :=
    handlePayfastNotification Shop.env "t1" db1 (notification Shop.env "o1" "FAILED") in
  let db2' := fst (updateOrderStatus "t1" db1 "o1" (Some "Cancelled") None) in
  let db3 :=
    fst (handlePayfastNotification Shop.env "t1" db1 (notification Shop.env "o1" "COMPLETE")) in
  resp = Acknowledged ∧
  o_status <$> orders db2 !! "o1" = Some "Cancelled" ∧
  (restocked "a" ∘ o_items) <$> orders db2 !! "o1" = Some 2 ∧
  stock_of (products Shop.db) "a" = Some 3 ∧
  stock_of (products db1) "a" = Some 1 ∧
  stock_of (products db2) "a" = Some 1 ∧
  stock_of (products db2') "a" = Some 3 ∧
  o_status <$> orders db3 !! "o1" = Some "Processing".
Proof. vm_compute. repeat split; reflexivity. Qed.

(* ===================================================================== *)
(** ** Signing and verifying                                             *)
(* ===================================================================== *)


(** With a passphrase the generator signs it as one more field, in its
    sorted place, and the verifier appends it after the fields it was
    sent. *)
Lemma verifySignatureString_with_passphrase env (data : Object) :
  truthy_str (PAYFAST_PASSPHRASE env) = true →
  verifySignatureString env data
  = payfastSignatureString data +:+ "&passphrase="
    +:+ encodeURIComponent (js_string (PAYFAST_PASSPHRASE env)).
Proof.
  intros Hp. unfold verifySignatureString, payfastSignatureString.
  by rewrite Hp.
Qed.

Lemma length_append (s t : string) :
  String.length (s +:+ t) = (String.length s + String.length t)%nat.
Proof. induction s as [|c s IH]; simpl; [done|]. by rewrite IH. Qed.

(** So, whatever the fields, the two strings differ once a passphrase is
    configured. *)
Lemma verifySignatureString_differs env (data : Object) :
  truthy_str (PAYFAST_PASSPHRASE env) = true →
  verifySignatureString env data ≠ payfastSignatureString data.
Proof.
  intros Hp. rewrite verifySignatureString_with_passphrase by done.
  intros H. apply (f_equal String.length) in H.
  rewrite !length_append in H. simpl in H. lia.
Qed.

(** C9.  With the passphrase "secret" configured, the generator signs
    [... &notify_url=...&passphrase=secret&return_url=...] for an order of
    105, and the verifier, given the fields the generator signed and the
    generator's signature, builds [... &passphrase=secret&return_url=...
    &passphrase=secret] and rejects it; it rejects it as well when the
    passphrase field is left out of the fields sent.  The same order is
    accepted when no passphrase is configured. *)
Theorem signature_drift_with_passphrase :
  let order := mkOrder "o1" None [mkOrderItem "a" "Flask A" 1 100 None]
                 (Some 100) (Some 10) 5 (Some 105)
                 (buildShippingAddress (Shop.one_flask 105) (Some Shop.address))
                 (Some "PayFast") None None "Processing" None None in
  ∃ params plain,
    payfastParams Shop.env_secret order = Some params ∧
    payfastParams Shop.env order = Some plain ∧
    params = (plain ++ [("passphrase", "secret")])%list ∧
    payfastSignature params = "785e81c4b3803b52d4949a188ed3a624" ∧
    payfastSignatureString params ≠ verifySignatureString Shop.env_secret params ∧
    verifyPayfastSignature Shop.env_secret params (Some (payfastSignature params)) = false ∧
    verifyPayfastSignature Shop.env_secret (obj_delete "passphrase" params)
                           (Some (payfastSignature params)) = false ∧
    verifyPayfastSignature Shop.env plain (Some (payfastSignature plain)) = true.
Proof.
  intros order. do 2 eexists.
  split; [vm_compute; reflexivity|].
  split; [vm_compute; reflexivity|].
  split; [reflexivity|].
  split; [vm_compute; reflexivity|].
  split; [apply String.eqb_neq; vm_compute; reflexivity|].
  repeat split; vm_compute; reflexivity.
Qed.

(* ===================================================================== *)
(** ** Concurrent creation attempts                                      *)
(* ===================================================================== *)

(** The number of database operations of one [createOrder] call: the
    [Product.find], one [save] per item, and the tail. *)
Definition steps_of (r : Request) : nat :=
  S (S (length (default [] (b_items (r_body r))))).

(** The schedule that lets each call run to its answer before the next
    one starts. *)
Fixpoint serial_schedule_from (i : nat) (reqs : list Request) : list nat :=
  match reqs with
  | [] => []
  | r :: rest => repeat i (steps_of r) ++ serial_schedule_from (S i) rest
  end.

Definition serial_schedule (reqs : list Request) : list nat :=
  serial_schedule_from 0 reqs.

Definition requests_nonneg (reqs : list Request) : Prop :=
  ∀ r items, r ∈ reqs → b_items (r_body r) = Some items → nonneg_quantities items.

Lemma processOrderItems_from_nonneg items :
  ∀ (found ps : gmap string Product) ois c,
    nonneg_stock ps →
    nonneg_stock (fst (processOrderItems_from items found ps ois c)).
Proof.
  induction items as [|item rest IH]; intros found ps ois c Hnn; simpl; [done|].
  destruct (processItem item found ps) as [e|[[[found1 ps1] oi] amount]] eqn:E;
    [done|].
  apply IH. by eapply processItem_nonneg.
Qed.

Lemma createOrder_nonneg env _id db user body :
  nonneg_stock (products db) →
  nonneg_stock (products (fst (createOrder env _id db user body))).
Proof.
  intros Hnn. unfold createOrder.
  destruct (missingFields body); [|done].
  destruct (b_items body) as [[|item rest]|]; [done| |done].
  unfold processOrderItems.
  pose proof (processOrderItems_from_nonneg (item :: rest)
                (Product_find (map i_id (item :: rest)) (products db))
                (products db) [] 0 Hnn) as Hps.
  destruct (processOrderItems_from _ _ _ _ _) as [ps [e|[ois c]]]; [done|].
  simpl in Hps.
  by destruct (finishOrder_keeps env _id (with_products db ps) user body ois c)
    as [-> _].
Qed.

(** Every step of every call keeps the stored stock non-negative. *)
Lemma step_thread_nonneg env db t :
  nonneg_stock (products db) →
  nonneg_stock (products (fst (Interleaving.step_thread env db t))).
Proof.
  intros Hnn. destruct t as [r|r [|item rest] found ois c|resp]; simpl; [|..|done].
  - repeat (case_match; try done).
  - pose proof (finishOrder_keeps env (r_id r) db (r_user r) (r_body r) ois c) as [Hp _].
    destruct (finishOrder _ _ _ _ _ _ _). simpl in *. by rewrite Hp.
  - destruct (processItem item found (products db))
      as [e|[[[found1 ps1] oi] amount]] eqn:E; [done|].
    simpl. by eapply processItem_nonneg.
Qed.

Lemma run_nonneg env schedule :
  ∀ st, nonneg_stock (products (fst st)) →
        nonneg_stock (products (fst (Interleaving.run env schedule st))).
Proof.
  unfold Interleaving.run.
  induction schedule as [|i rest IH]; intros st Hnn; simpl; [done|].
  apply IH. unfold Interleaving.step.
  destruct (snd st !! i) as [t|]; [|done].
  pose proof (step_thread_nonneg env (fst st) t Hnn) as H.
  by destruct (Interleaving.step_thread env (fst st) t).
Qed.

Lemma run_cons env i schedule st :
  Interleaving.run env (i :: schedule) st
  = Interleaving.run env schedule (Interleaving.step env st i).
Proof. reflexivity. Qed.

Lemma run_app env s1 s2 st :
  Interleaving.run env (s1 ++ s2) st
  = Interleaving.run env s2 (Interleaving.run env s1 st).
Proof. apply fold_left_app. Qed.

Arguments Interleaving.run : simpl never.

Lemma step_at env db (threads : list Interleaving.Thread) i t :
  threads !! i = Some t →
  Interleaving.step env (db, threads) i
  = (fst (Interleaving.step_thread env db t),
     <[i := snd (Interleaving.step_thread env db t)]> threads).
Proof.
  intros Hi. unfold Interleaving.step. simpl. rewrite Hi.
  by destruct (Interleaving.step_thread env db t).
Qed.

(** A call that has answered does nothing more. *)
Lemma run_finished env i n db (threads : list Interleaving.Thread) resp :
  threads !! i = Some (Interleaving.Finished resp) →
  Interleaving.run env (repeat i n) (db, threads) = (db, threads).
Proof.
  intros Hi. induction n as [|n IH]; [done|].
  change (repeat i (S n)) with (i :: repeat i n).
  rewrite run_cons, (step_at _ _ _ _ _ Hi). simpl.
  by rewrite list_insert_id.
Qed.

(** A call alone in its loop: the steps it takes are the turns of
    [processOrderItems] followed by the tail of the handler. *)
Lemma run_loop env i r rest :
  ∀ n db (threads : list Interleaving.Thread) found ois c,
    threads !! i = Some (Interleaving.InLoop r rest found ois c) →
    (length rest < n)%nat →
    Interleaving.run env (repeat i n) (db, threads)
    = match processOrderItems_from rest found (products db) ois c with
      | (ps, inl e) =>
          (with_products db ps, <[i := Interleaving.Finished (Failed e)]> threads)
      | (ps, inr (ois', c')) =>
          let '(db', resp) :=
            finishOrder env (r_id r) (with_products db ps) (r_user r) (r_body r) ois' c' in
          (db', <[i := Interleaving.Finished resp]> threads)
      end.
Proof.
  induction rest as [|item rest IH]; intros n db threads found ois c Hi Hn;
    (destruct n as [|n]; [simpl in Hn; lia|]);
    change (repeat i (S n)) with (i :: repeat i n);
    rewrite run_cons, (step_at _ _ _ _ _ Hi);
    assert (Hlt : (i < length threads)%nat) by (by eapply lookup_lt_Some);
    simpl.
  - rewrite with_products_same.
    destruct (finishOrder _ _ _ _ _ _ _) as [db' resp]. simpl.
    apply run_finished with (resp := resp).
    by apply list_lookup_insert_eq.
  - destruct (processItem item found (products db))
      as [e|[[[found1 ps1] oi] amount]] eqn:E; simpl.
    + rewrite with_products_same.
      apply run_finished with (resp := Failed e).
      by apply list_lookup_insert_eq.
    + rewrite (IH n _ _ found1 (ois ++ [oi])%list (c + amount)).
      * simpl.
        destruct (processOrderItems_from rest found1 ps1 _ _) as [ps [e|[ois' c']]].
        -- rewrite list_insert_insert_eq. by destruct db.
        -- replace (with_products (with_products db ps1) ps)
             with (with_products db ps) by (by destruct db).
           destruct (finishOrder _ _ _ _ _ _ _).
           by rewrite list_insert_insert_eq.
      * by apply list_lookup_insert_eq.
      * simpl in Hn. lia.
Qed.

(** A call run alone from its start does what [createOrder] does. *)
Lemma run_solo env i r db (threads : list Interleaving.Thread) :
  threads !! i = Some (Interleaving.Pending r) →
  Interleaving.run env (repeat i (steps_of r)) (db, threads)
  = (fst (createOrder env (r_id r) db (r_user r) (r_body r)),
     <[i := Interleaving.Finished
              (snd (createOrder env (r_id r) db (r_user r) (r_body r)))]> threads).
Proof.
  intros Hi. unfold steps_of, createOrder.
  assert (Hlt : (i < length threads)%nat) by (by eapply lookup_lt_Some).
  remember (S (length (default [] (b_items (r_body r))))) as n eqn:Hn.
  change (repeat i (S n)) with (i :: repeat i n).
  rewrite run_cons, (step_at _ _ _ _ _ Hi). simpl.
  destruct (missingFields (r_body r)) as [|m ms]; simpl.
  2:{ apply run_finished with (resp := Failed (ValidationError (m :: ms))).
      by apply list_lookup_insert_eq. }
  destruct (b_items (r_body r)) as [[|item rest]|] eqn:Hitems; simpl.
  1,3: apply run_finished with (resp := Failed NoItems);
       by apply list_lookup_insert_eq.
  rewrite (run_loop env i r (item :: rest) n db _
             (Product_find (i_id item :: map i_id rest) (products db)) [] 0).
  - unfold processOrderItems.
    destruct (processOrderItems_from (item :: rest) _ _ _ _) as [ps [e|[ois c]]].
    + by rewrite list_insert_insert_eq.
    + destruct (finishOrder _ _ _ _ _ _ _). by rewrite list_insert_insert_eq.
  - by apply list_lookup_insert_eq.
  - subst n. simpl. lia.
Qed.

(** Under the serial schedule the calls are served one after another. *)
Lemma run_serial env reqs :
  ∀ db (answered : list Interleaving.Thread),
    Interleaving.run env (serial_schedule_from (length answered) reqs)
                     (db, (answered ++ map Interleaving.Pending reqs)%list)
    = (fst (serve env reqs db),
       (answered ++ map Interleaving.Finished (snd (serve env reqs db)))%list).
Proof.
  induction reqs as [|r rest IH]; intros db answered; [done|].
  change (serial_schedule_from (length answered) (r :: rest))
    with (repeat (length answered) (steps_of r)
          ++ serial_schedule_from (S (length answered)) rest)%list.
  change (map Interleaving.Pending (r :: rest))
    with (Interleaving.Pending r :: map Interleaving.Pending rest).
  rewrite run_app, run_solo by (by rewrite list_lookup_middle).
  rewrite insert_app_r_alt, Nat.sub_diag by done.
  change (<[0%nat := ?x]> (?y :: ?l)) with (x :: l).
  specialize (IH (fst (createOrder env (r_id r) db (r_user r) (r_body r)))
                 (answered ++ [Interleaving.Finished
                    (snd (createOrder env (r_id r) db (r_user r) (r_body r)))])%list).
  rewrite length_app, Nat.add_1_r, <- app_assoc in IH. simpl in IH.
  rewrite IH. simpl.
  destruct (createOrder env (r_id r) db (r_user r) (r_body r)) as [db1 resp].
  simpl. destruct (serve env rest db1) as [db2 resps]. simpl.
  by rewrite <- app_assoc.
Qed.

Lemma responses_finished db (rs : list Response) :
  Interleaving.responses (db, map Interleaving.Finished rs) = rs.
Proof.
  unfold Interleaving.responses. simpl.
  induction rs as [|r rs IH]; [done|]. cbn. f_equal. exact IH.
Qed.

(** One call served alone: what it commits comes out of the stock. *)
Lemma createOrder_commits env _id db user body db' resp p s :
  (∀ items, b_items body = Some items → nonneg_quantities items) →
  createOrder env _id db user body = (db', resp) →
  stock_of (products db) p = Some s →
  ∃ s', stock_of (products db') p = Some s' ∧ s' + committed p resp ≤ s.
Proof.
  intros Hq Hc Hs.
  apply createOrder_outcome in Hc as (done & Hout & _ & Hlook).
  assert (Hs' : stock_of (products db') p = Some (s - demand p done)).
  { unfold stock_of in *. rewrite Hlook.
    destruct (products db !! p) as [pr|]; simpl in *; [|done]. congruence. }
  exists (s - demand p done). split; [done|].
  inversion Hout as [Hm Hdb|Hm Hi Hdb|items pre bad post e' Hm Hi Heq Hth Ho
                     |items e' Hm Hi Hne Hrej Ho
                     |items o Hm Hi Hne HF]; simplify_eq; simpl; try lia.
  - specialize (Hq _ Hi). apply Forall_app in Hq as [Hq _].
    pose proof (demand_nonneg p _ Hq). lia.
  - pose proof (demand_nonneg p _ (Hq _ Hi)). lia.
  - rewrite (restocked_snapshot _ p _ _ HF). lia.
Qed.

(** Calls served one after another never commit more than the stock. *)
Lemma serve_bound env reqs :
  ∀ db p s,
    requests_nonneg reqs →
    nonneg_stock (products db) →
    stock_of (products db) p = Some s →
    ∃ s', stock_of (products (fst (serve env reqs db))) p = Some s' ∧
          0 ≤ s' ∧ s' + total_committed p (snd (serve env reqs db)) ≤ s.
Proof.
  induction reqs as [|r rest IH]; intros db p s Hq Hnn Hs; simpl.
  - exists s. repeat split; [done| |lia].
    unfold stock_of in Hs. destruct (products db !! p) as [pr|] eqn:E; [|done].
    injection Hs as <-. by eapply Hnn.
  - destruct (createOrder env (r_id r) db (r_user r) (r_body r)) as [db1 resp] eqn:Hc.
    destruct (createOrder_commits env _ _ _ _ _ _ p s
                (fun items => Hq r items (list_elem_of_here _ _)) Hc Hs)
      as (s1 & Hs1 & Hle).
    assert (Hnn1 : nonneg_stock (products db1)).
    { pose proof (createOrder_nonneg env (r_id r) db (r_user r) (r_body r) Hnn) as H.
      by rewrite Hc in H. }
    destruct (IH db1 p s1) as (s2 & Hs2 & Hpos & Hle2); auto.
    { intros r' items Hr'. apply Hq. by right. }
    destruct (serve env rest db1) as [db2 resps]. simpl in *.
    exists s2. repeat split; [done|done|lia].
Qed.

(** C1, as stated, fails: Flask A has 3 in stock and two calls ask for 2
    each.  When both have read the product before either saves, both
    checks pass on the in-memory stock 3, both orders are created, the
    stock is 1 and the committed decrements add up to 4 > 3; neither call
    fails with the insufficient-stock error. *)
Lemma interleaved_oversell_counterexample :
  let reqs := [mkRequest "o1" None Shop.two_flasks;
               mkRequest "o2" None Shop.two_flasks] in
  let st := Interleaving.run Shop.env [0; 1; 0; 1; 0; 1]%nat
                             (Interleaving.start Shop.db reqs) in
  stock_of (products Shop.db) "a" = Some 3 ∧
  map status_code (Interleaving.responses st) = [201; 201] ∧
  total_committed "a" (Interleaving.responses st) = 4 ∧
  stock_of (products (fst st)) "a" = Some 1 ∧
  ¬ total_committed "a" (Interleaving.responses st) ≤ 3.
Proof. vm_compute. repeat split; try reflexivity. intros H. by apply H. Qed.

(** C1, amended.  Whatever the interleaving of the creation attempts, the
    stock counter of no product ever becomes negative.  The decrement is a
    check on the document read at the start of the call followed by an
    unconditional write, so the bound on the committed decrements holds
    for calls that do not overlap: served one after another, with
    non-negative quantities asked, the decrements committed by the
    successful attempts on a product of stock [s] add up to at most [s]. *)
Theorem stock_ledger_under_interleaving env reqs db :
  nonneg_stock (products db) →
  (∀ schedule,
     nonneg_stock (products (fst (Interleaving.run env schedule
                                    (Interleaving.start db reqs))))) ∧
  (requests_nonneg reqs →
   ∀ p s, stock_of (products db) p = Some s →
     ∃ s', stock_of (products (fst (Interleaving.run env (serial_schedule reqs)
                                      (Interleaving.start db reqs)))) p = Some s' ∧
           0 ≤ s' ∧
           total_committed p (Interleaving.responses
                                (Interleaving.run env (serial_schedule reqs)
                                   (Interleaving.start db reqs))) ≤ s - s').
Proof.
  intros Hnn. split.
  - intros schedule. by apply run_nonneg.
  - intros Hq p s Hs.
    unfold serial_schedule, Interleaving.start.
    pose proof (run_serial env reqs db []) as Hrun. simpl in Hrun.
    rewrite Hrun. simpl. rewrite responses_finished.
    destruct (serve_bound env reqs db p s Hq Hnn Hs) as (s' & Hs' & Hpos & Hle).
    exists s'. repeat split; [done|done|lia].
Qed.

Lemma stock_ledger_under_interleaving_witness :
  let reqs := [mkRequest "o1" None Shop.two_flasks;
               mkRequest "o2" None Shop.two_flasks] in
  nonneg_stock (products (fst (Interleaving.run Shop.env [0; 1; 0; 1; 0; 1]%nat
                                 (Interleaving.start Shop.db reqs)))) ∧
  ∃ s', stock_of (products (fst (Interleaving.run Shop.env (serial_schedule reqs)
                                   (Interleaving.start Shop.db reqs)))) "a" = Some s' ∧
        0 ≤ s' ∧
        total_committed "a" (Interleaving.responses
                               (Interleaving.run Shop.env (serial_schedule reqs)
                                  (Interleaving.start Shop.db reqs))) ≤ 3 - s'.
Proof.
  intros reqs.
  destruct (stock_ledger_under_interleaving Shop.env reqs Shop.db) as [Hany Hserial].
  - intros k p. unfold Shop.db. simpl.
    rewrite !lookup_insert. repeat case_decide; try done.
    all: intros [= <-]; simpl; lia.
  - split; [apply Hany|]. apply Hserial; [|reflexivity].
    intros r items Hr Hitems. unfold reqs in Hr.
    apply elem_of_cons in Hr as [->|Hr];
      [|apply elem_of_cons in Hr as [->|Hr]; [|by apply elem_of_nil in Hr]].
    all: injection Hitems as <-; constructor; [simpl; lia|constructor].
Defined.

(** Served one after another, the second of the two calls for 2 Flasks A
    out of 3 fails with the insufficient-stock error and the stock is 1. *)
Example serial_second_call_fails :
  let reqs := [mkRequest "o1" None Shop.two_flasks;
               mkRequest "o2" None Shop.two_flasks] in
  let st := Interleaving.run Shop.env (serial_schedule reqs)
                             (Interleaving.start Shop.db reqs) in
  (∃ o, Interleaving.responses st = [Created o; Failed (InsufficientStock "Flask A" 1)]) ∧
  stock_of (products (fst st)) "a" = Some 1.
Proof. vm_compute. split; [eexists|]; reflexivity. Qed.

(* ===================================================================== *)
(** ** Order creation: what a call leaves alone and what success means   *)
(* ===================================================================== *)

(** The fields of a created order that come from the request as it is. *)
Lemma createOrder_Created_fields env _id db user body db' o :
  createOrder env _id db user body = (db', Created o) →
  o_id o = _id ∧ o_user o = u_id <$> user ∧
  o_paymentMethod o = b_paymentMethod body ∧
  o_shippingAddress o = buildShippingAddress body (b_shippingAddress body) ∧
  o_deliveredAt o = None ∧ o_trackingId o = None ∧ o_status o = "Processing".
Proof.
  unfold createOrder.
  destruct (missingFields body); [|done].
  destruct (b_items body) as [[|item rest]|]; [done| |done].
  destruct (processOrderItems _ _ _) as [ps [e|[ois c]]]; [done|].
  unfold finishOrder.
  destruct (negb _); [done|].
  destruct (handleCoupon _ _ _) as [e|coupon]; [done|].
  case_bool_decide.
  - destruct (generatePayfastPayload _ _) as [pr|]; simpl; [|done].
    destruct (Order_validate _); [|done]. intros [= <- <-]. by repeat split.
  - destruct (Order_validate _); [|done]. intros [= <- <-]. by repeat split.
Qed.

(** A run of the loop that goes through leaves no product it touched, and
    none that was non-negative before, with a negative stock. *)
Lemma processOrderItems_from_touched items :
  ∀ (found ps : gmap string Product) ois c ps' r k,
    (∀ it, it ∈ items → found !! i_id it = ps !! i_id it) →
    processOrderItems_from items found ps ois c = (ps', inr r) →
    (∃ it, it ∈ items ∧ i_id it = k) ∨ (∃ p, ps !! k = Some p ∧ 0 ≤ p_stock p) →
    ∃ p', ps' !! k = Some p' ∧ 0 ≤ p_stock p'.
Proof.
  induction items as [|item rest IH]; intros found ps ois c ps' r k Hagree; simpl.
  - intros [= <- <-] [(it & Hit & _)|H]; [by apply elem_of_nil in Hit|done].
  - assert (Hitem : found !! i_id item = ps !! i_id item) by (apply Hagree; left).
    destruct (processItem item found ps) as [e|[[[found1 ps1] oi] amount]] eqn:E;
      [done|].
    apply processItem_inr in E as (product & Hf & Hle & -> & -> & -> & ->).
    assert (Hps : ps !! i_id item = Some product) by congruence.
    rewrite (Product_save_insert _ _ _ _ Hps).
    intros Hrec Hk. eapply IH; [|exact Hrec|].
    { intros it Hit. rewrite !lookup_insert. case_decide; [done|].
      apply Hagree. by right. }
    destruct (decide (i_id item = k)) as [<-|Hne].
    + right. eexists. rewrite lookup_insert_eq. split; [done|]. simpl. lia.
    + destruct Hk as [(it & Hit & Hid)|(p & Hp & Hpos)].
      * apply elem_of_cons in Hit as [->|Hit]; [done|]. left. eauto.
      * right. exists p. by rewrite lookup_insert_ne.
Qed.

(** X1.  Whatever its outcome, a creation attempt never touches the
    coupons, never adds or removes a product and never changes a product's
    name, price or image; it leaves every order stored under another id as
    it was, and stores nothing at all unless it answers with the created
    order. *)
Theorem createOrder_frame env _id db user body :
  coupons (fst (createOrder env _id db user body)) = coupons db ∧
  dom (products (fst (createOrder env _id db user body))) = dom (products db) ∧
  (∀ k p', products (fst (createOrder env _id db user body)) !! k = Some p' →
     ∃ p, products db !! k = Some p ∧ p_name p' = p_name p ∧
          p_price p' = p_price p ∧ p_image p' = p_image p) ∧
  (∀ j, j ≠ _id →
     orders (fst (createOrder env _id db user body)) !! j = orders db !! j) ∧
  ((∀ o, snd (createOrder env _id db user body) ≠ Created o) →
   orders (fst (createOrder env _id db user body)) = orders db).
Proof.
  destruct (createOrder env _id db user body) as [db' resp] eqn:Hc. simpl.
  apply createOrder_outcome in Hc as (done & Hout & Hcoupons & Hlook).
  split; [done|]. split; [|split; [|split]].
  - apply set_eq. intros k. rewrite !elem_of_dom, Hlook.
    destruct (products db !! k); simpl; split; intros [? ?]; eauto; done.
  - intros k p'. rewrite Hlook. destruct (products db !! k) as [p|]; [|done].
    intros [= <-]. by exists p.
  - intros j Hj.
    inversion Hout as [? ->|? ? ->|? ? ? ? ? ? ? ? ? ->|? ? ? ? ? ? ->
                       |? ? ? ? ? ? ? ? ? ? ? ? ->]; subst; try done.
    by rewrite lookup_insert_ne.
  - intros Hno.
    inversion Hout as [? ->|? ? ->|? ? ? ? ? ? ? ? ? ->|? ? ? ? ? ? ->
                       |? o]; subst; try done.
    by destruct (Hno o).
Qed.

(** X2.  When a creation attempt succeeds, the order is stored under the
    id drawn for it, is Processing, belongs to the requesting user (to
    nobody for a guest), carries the contact fields of the request, and
    its line items are, in request order, the snapshots of the stored
    products: same product id and quantity, the stored name and price.
    The stock of every product has gone down by exactly the quantity the
    request asked of it. *)
Theorem createOrder_Created_snapshot env _id db user body db' o :
  createOrder env _id db user body = (db', Created o) →
  orders db' !! _id = Some o ∧ o_id o = _id ∧ o_status o = "Processing" ∧
  o_user o = u_id <$> user ∧
  sa_email (o_shippingAddress o) = b_email body ∧
  sa_phone (o_shippingAddress o) = b_phone body ∧
  sa_fullName (o_shippingAddress o) = b_name body ∧
  ∃ items,
    b_items body = Some items ∧
    Forall2 (snapshot_of (products db)) items (o_items o) ∧
    ∀ k, stock_of (products db') k
         = (fun s => s - demand k items) <$> stock_of (products db) k.
Proof.
  intros Hc.
  destruct (createOrder_Created_fields _ _ _ _ _ _ _ Hc)
    as (Hid & Hu & _ & Hsa & _ & _ & Hst).
  apply createOrder_outcome in Hc as (done & Hout & _ & Hlook).
  inversion Hout as [| | | |items o' _ Hi _ HF _ _ _ _ _ _ Ho]; subst.
  split; [by rewrite Ho, lookup_insert_eq|].
  repeat (split; [done || by rewrite Hsa|]).
  exists done. repeat split; [done|done|].
  intros k. unfold stock_of. rewrite Hlook. by destruct (products db !! k).
Qed.

Lemma createOrder_Created_snapshot_witness :
  ∃ o, orders (fst (createOrder Shop.env "o1" Shop.db (Some Shop.customer)
                      Shop.two_flasks)) !! "o1" = Some o ∧
       o_user o = Some "u1".
Proof.
  destruct (createOrder_Created_snapshot Shop.env "o1" Shop.db (Some Shop.customer)
              Shop.two_flasks
              (fst (createOrder Shop.env "o1" Shop.db (Some Shop.customer)
                      Shop.two_flasks))
              (mkOrder "o1" (Some "u1") [mkOrderItem "a" "Flask A" 2 100 None]
                 (Some 200) (Some 10) 5 (Some 205)
                 (buildShippingAddress Shop.two_flasks (Some Shop.address))
                 (Some "COD") None None "Processing" None None))
    as (Ho & _ & _ & Hu & _).
  - vm_compute. reflexivity.
  - eexists. split; [exact Ho|exact Hu].
Defined.

(** X3.  A creation attempt that succeeds never sells more than there was:
    every line asks for at least one unit of a stored product, and the
    units all the lines of the request ask of that product together, also
    when several lines name it, do not exceed its stock before the
    attempt. *)
Theorem createOrder_never_oversells env _id db user body db' o :
  createOrder env _id db user body = (db', Created o) →
  ∃ items,
    b_items body = Some items ∧
    Forall (fun it => 1 ≤ i_quantity it ∧
                      ∃ p, products db !! i_id it = Some p ∧
                           demand (i_id it) items ≤ p_stock p) items.
Proof.
  intros Hc. pose proof Hc as Hout.
  apply createOrder_outcome in Hout as (done & Hout & _ & Hlook).
  inversion Hout as [| | | |items o' Hm Hi Hne HF _ Hv]; subst.
  exists done. split; [done|].
  assert (Hq : Forall (fun it => 1 ≤ i_quantity it) done).
  { unfold Order_validate in Hv. apply andb_prop in Hv as [_ Hv].
    rewrite forallb_forall in Hv.
    clear -HF Hv. induction HF as [|it oi l l' (_ & Hq & _) _ IH]; [done|].
    constructor.
    - rewrite <- Hq. apply Z.leb_le, Hv. by left.
    - apply IH. intros x Hx. apply Hv. by right. }
  assert (Hpos : ∀ it, it ∈ done →
            ∃ p', products db' !! i_id it = Some p' ∧ 0 ≤ p_stock p').
  { revert Hc. unfold createOrder. rewrite Hm, Hi.
    destruct done as [|item rest]; [done|].
    unfold processOrderItems.
    destruct (processOrderItems_from _ _ _ _ _) as [ps [e|[ois c]]] eqn:Hloop; [done|].
    intros Hfin it Hit.
    pose proof (finishOrder_keeps env _id (with_products db ps) user body ois c)
      as [Hp _].
    rewrite Hfin in Hp. simpl in Hp. rewrite Hp.
    eapply processOrderItems_from_touched; [apply Product_find_agree|exact Hloop|].
    left. eauto. }
  apply Forall_forall. intros it Hit. split.
  - by eapply Forall_forall in Hq.
  - destruct (Hpos it Hit) as (p' & Hp' & Hge).
    rewrite Hlook in Hp'. destruct (products db !! i_id it) as [p|]; [|done].
    injection Hp' as <-. simpl in Hge. exists p. split; [done|lia].
Qed.

Lemma createOrder_never_oversells_witness :
  ∃ items, Some [mkItem "a" 2] = Some items ∧
           Forall (fun it => 1 ≤ i_quantity it ∧
                             ∃ p, products Shop.db !! i_id it = Some p ∧
                                  demand (i_id it) items ≤ p_stock p) items.
Proof.
  refine (createOrder_never_oversells Shop.env "o1" Shop.db None Shop.two_flasks
            (fst (createOrder Shop.env "o1" Shop.db None Shop.two_flasks))
            (mkOrder "o1" None [mkOrderItem "a" "Flask A" 2 100 None]
               (Some 200) (Some 10) 5 (Some 205)
               (buildShippingAddress Shop.two_flasks (Some Shop.address))
               (Some "COD") None None "Processing" None None) _).
  vm_compute. reflexivity.
Defined.

(** X4.  The validators of the order schema run when the order is saved,
    after the products have been written.  An attempt that fails there
    (the payment method is not 'COD' or 'PayFast', or a line asks for less
    than one unit) stores no order but keeps every decrement: each
    product's stock is its value before the attempt minus the quantity
    asked of it, so a negative quantity has raised the stock. *)
Theorem createOrder_validation_after_writes env _id db user body db' :
  createOrder env _id db user body = (db', Failed OrderValidation) →
  orders db' = orders db ∧
  ∃ items,
    b_items body = Some items ∧
    (∀ k, stock_of (products db') k
          = (fun s => s - demand k items) <$> stock_of (products db) k) ∧
    (b_paymentMethod body ≠ Some "COD" ∧ b_paymentMethod body ≠ Some "PayFast" ∨
     Exists (fun it => i_quantity it < 1) items).
Proof.
  unfold createOrder.
  destruct (missingFields body) as [|m ms] eqn:Hm; [|done].
  destruct (b_items body) as [[|item rest]|] eqn:Hitems; [done| |done].
  set (items := item :: rest) in *. unfold processOrderItems.
  destruct (processOrderItems_from items _ _ _ _) as [ps res] eqn:Hloop.
  apply processOrderItems_from_store in Hloop as (pre & Hrun & Hlook & Hois);
    [|apply Product_find_agree].
  destruct res as [e|[ois c]]; simpl in Hrun;
    inversion Hrun as [|? bad post ? Heq Hth]; subst.
  { intros [= <- ->]. by apply throws_loop_errors in Hth as [[? ?]|(? & ? & ?)]. }
  destruct (Hois ois c eq_refl) as (new & -> & HF & _). simpl in HF.
  unfold finishOrder.
  destruct (negb _); [done|].
  destruct (handleCoupon _ _ _) as [e|coupon] eqn:Hcoupon.
  { intros [= <- ->]. unfold handleCoupon in Hcoupon.
    repeat (case_match; try done); congruence. }
  set (order := createOrderDocument _ _ _ _ _ _ _).
  assert (Hbad : ∀ order', o_items order' = new →
            o_paymentMethod order' = b_paymentMethod body →
            o_totalAmount order' = b_totalAmount body →
            Order_validate order' = false →
            b_paymentMethod body ≠ Some "COD" ∧ b_paymentMethod body ≠ Some "PayFast" ∨
            Exists (fun it => i_quantity it < 1) items).
  { intros order' Hi Hpm Ht. unfold Order_validate. rewrite Hi, Hpm, Ht.
    assert (Htot : truthy_obj (b_totalAmount body) = true).
    { assert (Hin : "totalAmount" ∉ missingFields body) by (rewrite Hm; apply not_elem_of_nil).
      destruct (b_totalAmount body) eqn:Hnone; [done|]. exfalso. apply Hin.
      apply missingFields_elem; [apply list_elem_of_In; simpl; tauto|].
      unfold body_truthy. simpl. by rewrite Hnone. }
    rewrite Htot, andb_true_r. intros Hv.
    apply andb_false_iff in Hv as [Hv|Hv].
    - left. destruct (b_paymentMethod body) as [pm|]; [|done].
      apply orb_false_elim in Hv as [H1 H2].
      apply String.eqb_neq in H1, H2. split; congruence.
    - right. clear -HF Hv.
      induction HF as [|it oi l l' (_ & Hq & _) _ IH]; [done|].
      simpl in Hv. apply andb_false_iff in Hv as [Hv|Hv].
      + left. apply Z.leb_gt in Hv. lia.
      + right. by apply IH. }
  assert (Hstock : ∀ k, stock_of ps k
                        = (fun s => s - demand k items) <$> stock_of (products db) k).
  { intros k. unfold stock_of. rewrite Hlook. by destruct (products db !! k). }
  case_bool_decide.
  - destruct (generatePayfastPayload _ _) as [pr|]; simpl; [|done].
    destruct (Order_validate _) eqn:Hv; [done|]. intros [= <-].
    split; [done|]. exists items. split; [done|]. split; [exact Hstock|].
    by apply (Hbad (set_paymentResult pr order)).
  - destruct (Order_validate _) eqn:Hv; [done|]. intros [= <-].
    split; [done|]. exists items. split; [done|]. split; [exact Hstock|].
    by apply (Hbad order).
Qed.

Lemma createOrder_validation_after_writes_witness :
  stock_of (products (fst (createOrder Shop.env "o1" Shop.db None
     (Shop.body [mkItem "a" (-5)] (Some (-500)) (Some 10) (Some 5) (Some (-495)) None))))
    "a" = Some 8.
Proof.
  destruct (createOrder_validation_after_writes Shop.env "o1" Shop.db None
     (Shop.body [mkItem "a" (-5)] (Some (-500)) (Some 10) (Some 5) (Some (-495)) None)
     (fst (createOrder Shop.env "o1" Shop.db None
        (Shop.body [mkItem "a" (-5)] (Some (-500)) (Some 10) (Some 5) (Some (-495)) None))))
    as (_ & items & Hi & Hstock & _).
  - vm_compute. reflexivity.
  - injection Hi as <-. rewrite Hstock. vm_compute. reflexivity.
Defined.

(* ===================================================================== *)
(** ** Reading an order, and the other status updates                    *)
(* ===================================================================== *)

(** The answers of [getOrderById]: 200 with the order, 404, 403, and the
    500 of the handler's [catch]. *)
Inductive ReadResponse :=
| Retrieved (o : Order)
| ReadNotFound
| ReadForbidden
| ReadError.

(** [authorizeOrderAccess]: [order.user?.equals(user._id) ||
    user.role === 'admin']. *)
Definition authorizeOrderAccess (order : Order) (user : User) : bool :=
  bool_decide (o_user order = Some (u_id user)) || String.eqb (u_role user) "admin".

(** [orderController.getOrderById].  [populate] only replaces the user and
    product references of the answer by the documents they name; with no
    [req.user], reading [user._id] or [user.role] throws. *)
Definition getOrderById (db : DB) (id : string) (user : option User)
  : ReadResponse :=
  match orders db !! id with
  | None => ReadNotFound
  | Some order =>
      match user with
      | None => ReadError
      | Some u => if authorizeOrderAccess order u then Retrieved order
                  else ReadForbidden
      end
  end.

(** X5.  An order that has just been created can be read back, under its
    id, by exactly the users [authorizeOrderAccess] admits: the user who
    created it and every admin.  Everybody else is answered 403, so the
    order of a guest checkout can be read by admins only. *)
Theorem createOrder_then_getOrderById env _id db user body db' o v :
  createOrder env _id db user body = (db', Created o) →
  (getOrderById db' _id (Some v) = Retrieved o ↔
   u_id <$> user = Some (u_id v) ∨ u_role v = "admin") ∧
  (getOrderById db' _id (Some v) = Retrieved o ∨
   getOrderById db' _id (Some v) = ReadForbidden) ∧
  (user = None → u_role v ≠ "admin" →
   getOrderById db' _id (Some v) = ReadForbidden).
Proof.
  intros Hc.
  destruct (createOrder_Created_fields _ _ _ _ _ _ _ Hc) as (_ & Hu & _).
  apply createOrder_persisted_amounts in Hc as [Ho _].
  unfold getOrderById, authorizeOrderAccess. rewrite Ho, Hu.
  destruct (String.eqb_spec (u_role v) "admin") as [Hr|Hr].
  - rewrite orb_true_r. split; [tauto|]. split; [tauto|]. by intros _ ?.
  - rewrite orb_false_r. case_bool_decide as Hown.
    + split; [tauto|]. split; [tauto|]. intros Hg. by rewrite Hg in Hown.
    + split; [|tauto]. split; [done|]. by intros [?|?].
Qed.

Lemma createOrder_then_getOrderById_witness :
  ∃ o, getOrderById (fst (createOrder Shop.env "o1" Shop.db (Some Shop.customer)
                            Shop.two_flasks)) "o1" (Some Shop.customer)
       = Retrieved o.
Proof.
  eexists.
  apply (proj1 (createOrder_then_getOrderById Shop.env "o1" Shop.db
                  (Some Shop.customer) Shop.two_flasks _ _ Shop.customer
                  ltac:(vm_compute; reflexivity))).
  left. reflexivity.
Defined.

(** The document [findByIdAndUpdate] stores for a status update. *)
Definition statusUpdated (st : string) (trackingId : option string) (o : Order)
  : Order :=
  if truthy_str trackingId
  then set_trackingId (default "" trackingId) (set_status st o)
  else set_status st o.

Lemma validStatuses_existsb st :
  existsb (String.eqb st) validStatuses = true ↔ st ∈ validStatuses.
Proof.
  rewrite existsb_exists, list_elem_of_In. split.
  - intros (x & Hx & ->%String.eqb_eq). done.
  - intros H. exists st. split; [done|apply String.eqb_refl].
Qed.

(** A valid status for a stored order: what is stored and what is
    answered. *)
Lemma updateOrderStatus_stored now db id st trackingId o :
  st ∈ validStatuses → orders db !! id = Some o →
  updateOrderStatus now db id (Some st) trackingId
  = ({| products := if String.eqb st "Cancelled"
                    then restoreStock (o_items o) (products db)
                    else products db;
        orders := <[id := statusUpdated st trackingId o]> (orders db);
        coupons := coupons db |},
     Updated (if String.eqb st "Delivered"
              then set_deliveredAt now (statusUpdated st trackingId o)
              else statusUpdated st trackingId o)).
Proof.
  intros Hst Ho. unfold updateOrderStatus, handleStatusChange, statusUpdated.
  apply validStatuses_existsb in Hst. rewrite Hst, Ho. simpl.
  by destruct (truthy_str trackingId).
Qed.


(** X7.  A status update other than Cancelled touches one document only:
    the products, the coupons and every other order are as before, and of
    the order itself only the status, and the tracking id when a non-empty
    one is sent, have changed - its items, amounts, owner and payment
    result are as they were. *)
Theorem updateOrderStatus_frame now db id st trackingId o :
  st ∈ validStatuses → st ≠ "Cancelled" → orders db !! id = Some o →
  let db' := fst (updateOrderStatus now db id (Some st) trackingId) in
  products db' = products db ∧ coupons db' = coupons db ∧
  (∀ j, j ≠ id → orders db' !! j = orders db !! j) ∧
  ∃ o', orders db' !! id = Some o' ∧ o_status o' = st ∧
        o_trackingId o' = (if truthy_str trackingId then trackingId else o_trackingId o) ∧
        o_items o' = o_items o ∧ o_totalAmount o' = o_totalAmount o ∧
        o_subtotal o' = o_subtotal o ∧ o_user o' = o_user o ∧
        o_paymentResult o' = o_paymentResult o ∧
        o_deliveredAt o' = o_deliveredAt o.
Proof.
  intros Hin Hne Ho db'. subst db'.
  rewrite (updateOrderStatus_stored now db id st trackingId o Hin Ho). simpl.
  apply String.eqb_neq in Hne. rewrite Hne.
  split; [done|]. split; [done|]. split.
  - intros j Hj. by rewrite lookup_insert_ne.
  - eexists. rewrite lookup_insert_eq. split; [done|].
    unfold statusUpdated. destruct trackingId as [t|]; simpl; [|done].
    by destruct (negb (String.eqb t "")).
Qed.

Lemma updateOrderStatus_frame_witness :
  products (fst (updateOrderStatus "t1"
     (fst (createOrder Shop.env "o1" Shop.db None Shop.two_flasks))
     "o1" (Some "Shipped") (Some "TRK1")))
  = products (fst (createOrder Shop.env "o1" Shop.db None Shop.two_flasks)).
Proof.
  refine (proj1 (updateOrderStatus_frame "t1"
     (fst (createOrder Shop.env "o1" Shop.db None Shop.two_flasks))
     "o1" "Shipped" (Some "TRK1")
     (mkOrder "o1" None [mkOrderItem "a" "Flask A" 2 100 None]
        (Some 200) (Some 10) 5 (Some 205)
        (buildShippingAddress Shop.two_flasks (Some Shop.address))
        (Some "COD") None None "Processing" None None) _ _ _)).
  - apply list_elem_of_In. simpl. tauto.
  - discriminate.
  - vm_compute. reflexivity.
Defined.

(** X8.  The Delivered update answers with [deliveredAt] set to the time
    of the call, but the stamp is put on the in-memory document after the
    write: the stored order is Delivered with the [deliveredAt] it had
    before, and that is what [getOrderById] returns afterwards. *)
Theorem updateOrderStatus_Delivered_stamp_not_stored now db id trackingId o :
  orders db !! id = Some o →
  let r := updateOrderStatus now db id (Some "Delivered") trackingId in
  (∃ o', snd r = Updated o' ∧ o_status o' = "Delivered" ∧
         o_deliveredAt o' = Some now) ∧
  (∃ stored, orders (fst r) !! id = Some stored ∧
             o_status stored = "Delivered" ∧
             o_deliveredAt stored = o_deliveredAt o) ∧
  (∀ u s, getOrderById (fst r) id (Some u) = Retrieved s →
          o_deliveredAt s = o_deliveredAt o).
Proof.
  intros Ho r. subst r.
  rewrite (updateOrderStatus_stored now db id "Delivered" trackingId o);
    [|apply list_elem_of_In; simpl; tauto|done].
  simpl.
  assert (Hst : o_status (statusUpdated "Delivered" trackingId o) = "Delivered" ∧
                o_deliveredAt (statusUpdated "Delivered" trackingId o) = o_deliveredAt o).
  { unfold statusUpdated. by destruct (truthy_str trackingId). }
  destruct Hst as [Hs Hd]. split; [|split].
  - eexists. by repeat split.
  - eexists. rewrite lookup_insert_eq. by repeat split.
  - intros u s. unfold getOrderById. simpl. rewrite lookup_insert_eq.
    destruct (authorizeOrderAccess _ _); [|done]. by intros [= <-].
Qed.

Lemma updateOrderStatus_Delivered_stamp_not_stored_witness :
  ∃ stored,
    orders (fst (updateOrderStatus "t1"
       (fst (createOrder Shop.env "o1" Shop.db None Shop.two_flasks))
       "o1" (Some "Delivered") None)) !! "o1" = Some stored ∧
    o_status stored = "Delivered" ∧ o_deliveredAt stored = None.
Proof.
  refine (proj1 (proj2 (updateOrderStatus_Delivered_stamp_not_stored "t1"
     (fst (createOrder Shop.env "o1" Shop.db None Shop.two_flasks))
     "o1" None
     (mkOrder "o1" None [mkOrderItem "a" "Flask A" 2 100 None]
        (Some 200) (Some 10) 5 (Some 205)
        (buildShippingAddress Shop.two_flasks (Some Shop.address))
        (Some "COD") None None "Processing" None None) _))).
  vm_compute. reflexivity.
Defined.

(* ===================================================================== *)
(** ** The webhook: rejections, the fields it keeps, the order of fields *)
(* ===================================================================== *)

(** X9.  A notification that is not acknowledged changes nothing: the
    store is as before whenever the answer is a rejection.  A body without
    a [signature] field, and a body whose signature is not the digest the
    verifier recomputes, are answered 400 whether or not the order
    exists. *)
Theorem handlePayfastNotification_rejected env now db body :
  (snd (handlePayfastNotification env now db body) ≠ Acknowledged →
   fst (handlePayfastNotification env now db body) = db) ∧
  (obj_get "signature" body = None →
   handlePayfastNotification env now db body = (db, Failed InvalidSignature)) ∧
  (verifyPayfastSignature env (obj_delete "signature" body)
                          (obj_get "signature" body) = false →
   handlePayfastNotification env now db body = (db, Failed InvalidSignature)) ∧
  status_code (Failed InvalidSignature) = 400.
Proof.
  unfold handlePayfastNotification. split; [|split; [|split; [|done]]].
  - repeat (case_match; try done).
  - intros ->. done.
  - intros ->. done.
Qed.

(** X10.  An acknowledged notification rewrites one order and nothing
    else: products, coupons and the other orders are as before, and of
    the order only the payment result and the status change.  The payment
    result carries the provider's payment id and status and the time of
    the delivery; the status stays as it was unless the provider status is
    COMPLETE or FAILED, so a notification with another status (PENDING,
    say) still overwrites the payment result. *)
Theorem handlePayfastNotification_frame env now db body db' :
  handlePayfastNotification env now db body = (db', Acknowledged) →
  products db' = products db ∧ coupons db' = coupons db ∧
  ∃ id o o' pr,
    obj_get "m_payment_id" (obj_delete "signature" body) = Some id ∧
    orders db !! id = Some o ∧ orders db' !! id = Some o' ∧
    (∀ j, j ≠ id → orders db' !! j = orders db !! j) ∧
    o_items o' = o_items o ∧ o_totalAmount o' = o_totalAmount o ∧
    o_subtotal o' = o_subtotal o ∧ o_user o' = o_user o ∧
    o_paymentMethod o' = o_paymentMethod o ∧
    o_paymentResult o' = Some pr ∧
    pr_id pr = obj_get "pf_payment_id" (obj_delete "signature" body) ∧
    pr_status pr = obj_get "payment_status" (obj_delete "signature" body) ∧
    pr_update_time pr = Some now ∧
    (obj_get "payment_status" (obj_delete "signature" body) ≠ Some "COMPLETE" →
     obj_get "payment_status" (obj_delete "signature" body) ≠ Some "FAILED" →
     o_status o' = o_status o).
Proof.
  unfold handlePayfastNotification.
  destruct (negb _); [done|].
  destruct (obj_get "m_payment_id" _) as [id|]; [|done].
  destruct (orders db !! id) as [o|] eqn:Ho; [|done].
  intros [= <-]. simpl. split; [done|]. split; [done|].
  exists id, o. do 2 eexists.
  split; [done|]. split; [done|]. split; [by rewrite lookup_insert_eq|].
  split; [by intros j Hj; rewrite lookup_insert_ne|].
  unfold updateOrderFromPayment.
  repeat case_bool_decide; simpl; repeat split; try done.
Qed.

Lemma handlePayfastNotification_frame_witness :
  products (fst (handlePayfastNotification Shop.env "t1"
     (fst (createOrder Shop.env "o1" Shop.db None Shop.two_flasks))
     (notification Shop.env "o1" "PENDING")))
  = products (fst (createOrder Shop.env "o1" Shop.db None Shop.two_flasks)).
Proof.
  refine (proj1 (handlePayfastNotification_frame Shop.env "t1"
     (fst (createOrder Shop.env "o1" Shop.db None Shop.two_flasks))
     (notification Shop.env "o1" "PENDING") _ _)).
  vm_compute. reflexivity.
Defined.

(** *** The order of the fields does not matter *)

From stdpp Require sorting.

Lemma sort_insert_Permutation k l : sort_insert k l ≡ₚ k :: l.
Proof.
  induction l as [|x l IH]; simpl; [done|].
  destruct (String.leb k x); [done|]. rewrite IH. apply perm_swap.
Qed.

Lemma sort_Permutation l : sort l ≡ₚ l.
Proof.
  induction l as [|x l IH]; simpl; [done|].
  by rewrite sort_insert_Permutation, IH.
Qed.

Lemma sort_insert_Sorted k l :
  Sorted.Sorted String.le l → Sorted.Sorted String.le (sort_insert k l).
Proof.
  induction 1 as [|x l Hs IH Hhd]; simpl; [by repeat constructor|].
  destruct (String.leb k x) eqn:Hk.
  - constructor; [by constructor|]. constructor. unfold String.le. by rewrite Hk.
  - assert (Hxk : String.le x k).
    { destruct (total String.le x k) as [?|Hkx]; [done|].
      unfold String.le in Hkx. by rewrite Hk in Hkx. }
    constructor; [done|].
    destruct l as [|y l]; simpl; [by constructor|].
    destruct (String.leb k y); constructor; [done|].
    by inversion Hhd.
Qed.

Lemma sort_Sorted l : Sorted.Sorted String.le (sort l).
Proof.
  induction l as [|x l IH]; simpl; [constructor|]. by apply sort_insert_Sorted.
Qed.

(** Sorting forgets the order the keys came in. *)
Lemma sort_Permutation_eq l1 l2 : l1 ≡ₚ l2 → sort l1 = sort l2.
Proof.
  intros Hp. apply (sorting.Sorted_unique String.le); [apply sort_Sorted..|].
  by rewrite !sort_Permutation.
Qed.

Lemma obj_get_elem_of (o : Object) key v :
  NoDup (map fst o) → obj_get key o = Some v ↔ (key, v) ∈ o.
Proof.
  unfold obj_get. induction o as [|[k w] o IH]; simpl; intros Hnd.
  - split; [done|]. by intros ?%elem_of_nil.
  - apply NoDup_cons in Hnd as [Hk Hnd].
    destruct (String.eqb_spec k key) as [->|Hne]; simpl.
    + split.
      * intros [= ->]. left.
      * intros [[= ->]|Hin]%elem_of_cons; [done|].
        exfalso. apply Hk. apply list_elem_of_fmap. by exists (key, v).
    + rewrite IH by done. split.
      * intros ?. by right.
      * intros [[= -> ->]|Hin]%elem_of_cons; done.
Qed.

Lemma obj_get_Permutation (o1 o2 : Object) key :
  o1 ≡ₚ o2 → NoDup (map fst o1) → obj_get key o1 = obj_get key o2.
Proof.
  intros Hp Hnd1.
  assert (Hnd2 : NoDup (map fst o2)) by (by rewrite <- Hp).
  destruct (obj_get key o1) as [v|] eqn:H1.
  - symmetry. apply obj_get_elem_of; [done|]. rewrite <- Hp.
    by apply obj_get_elem_of.
  - destruct (obj_get key o2) as [v|] eqn:H2; [|done].
    apply obj_get_elem_of in H2; [|done]. rewrite <- Hp in H2.
    apply obj_get_elem_of in H2; [|done]. congruence.
Qed.

(** X11.  Signing and verifying do not depend on the order in which the
    fields of the object were set: two objects with the same fields, keys
    distinct as in any JavaScript object, give the same signature string
    in the generator and in the verifier, so the verifier returns the same
    verdict on both for every signature. *)
Theorem signature_ignores_field_order env (data1 data2 : Object) :
  data1 ≡ₚ data2 → NoDup (map fst data1) →
  payfastSignatureString data1 = payfastSignatureString data2 ∧
  verifySignatureString env data1 = verifySignatureString env data2 ∧
  ∀ received, verifyPayfastSignature env data1 received
              = verifyPayfastSignature env data2 received.
Proof.
  intros Hp Hnd.
  assert (Hs : payfastSignatureString data1 = payfastSignatureString data2).
  { unfold payfastSignatureString, Object_keys.
    rewrite (sort_Permutation_eq (map fst data1) (map fst data2))
      by (by apply Permutation_map).
    f_equal. apply map_ext. intros key.
    by rewrite (obj_get_Permutation data1 data2 key). }
  assert (Hv : verifySignatureString env data1 = verifySignatureString env data2).
  { unfold verifySignatureString.
    change (join "&" (map _ (sort (Object_keys data1))))
      with (payfastSignatureString data1).
    change (join "&" (map _ (sort (Object_keys data2))))
      with (payfastSignatureString data2).
    by rewrite Hs. }
  split; [done|]. split; [done|].
  intros received. unfold verifyPayfastSignature. by rewrite Hv.
Qed.

Lemma signature_ignores_field_order_witness :
  verifySignatureString Shop.env
    [("payment_status", "COMPLETE"); ("m_payment_id", "o1")]
  = verifySignatureString Shop.env
    [("m_payment_id", "o1"); ("payment_status", "COMPLETE")].
Proof.
  refine (proj1 (proj2 (signature_ignores_field_order Shop.env
    [("payment_status", "COMPLETE"); ("m_payment_id", "o1")]
    [("m_payment_id", "o1"); ("payment_status", "COMPLETE")] _ _))).
  - apply perm_swap.
  - simpl. repeat constructor; [|apply not_elem_of_nil].
    intros [[=]|?%elem_of_nil]%elem_of_cons; done.
Defined.

(* ===================================================================== *)
(** ** The redirect payload                                              *)
(* ===================================================================== *)




Lemma append_assoc (a b c : string) : (a +:+ b) +:+ c = a +:+ (b +:+ c).
Proof.
  induction a as [|x a IH]; [done|].
  change (String x ((a +:+ b) +:+ c) = String x (a +:+ (b +:+ c))).
  by rewrite IH.
Qed.

Lemma join_snoc sep (l : list string) x :
  l ≠ [] → join sep (l ++ [x])%list = join sep l +:+ sep +:+ x.
Proof.
  induction l as [|a l IH]; [done|]. intros _.
  destruct l as [|b l]; [done|].
  change (join sep ((a :: b :: l) ++ [x])%list)
    with (a +:+ sep +:+ join sep ((b :: l) ++ [x])%list).
  change (join sep (a :: b :: l)) with (a +:+ sep +:+ join sep (b :: l)).
  rewrite IH by done. by rewrite !append_assoc.
Qed.

(** Setting a key the object does not have puts it last. *)
Lemma obj_set_fresh key v (o : Object) :
  key ∉ map fst o → obj_set key v o = (o ++ [(key, v)])%list.
Proof.
  induction o as [|[k w] o IH]; simpl; [done|].
  intros Hk. apply not_elem_of_cons in Hk as [Hne Hk].
  destruct (String.eqb_spec k key) as [->|_]; [done|]. by rewrite IH.
Qed.

Lemma payfastParams_secret env order params :
  truthy_str (PAYFAST_PASSPHRASE env) = true →
  payfastParams env order = Some params →
  ∃ plain,
    (map fst plain = ["merchant_id"; "merchant_key"; "return_url"; "cancel_url";
                      "notify_url"; "m_payment_id"; "amount"; "item_name"] ∧
     obj_get "m_payment_id" plain = Some (o_id order)) ∧
    params = (plain ++ [("passphrase", js_string (PAYFAST_PASSPHRASE env))])%list.
Proof.
  intros Hp. unfold payfastParams. rewrite Hp.
  destruct (o_totalAmount order) as [total|]; [|done].
  intros [= <-].
  exists [("merchant_id", js_string (PAYFAST_MERCHANT_ID env));
          ("merchant_key", js_string (PAYFAST_MERCHANT_KEY env));
          ("return_url", js_string (PAYFAST_RETURN_URL env));
          ("cancel_url", js_string (PAYFAST_CANCEL_URL env));
          ("notify_url", js_string (PAYFAST_NOTIFY_URL env));
          ("m_payment_id", o_id order);
          ("amount", toFixed2 total);
          ("item_name", "Order #" +:+ o_id order)].
  by repeat split.
Qed.

(** X13.  With a passphrase configured, the passphrase is one of the
    parameters of the redirect URL: the URL that [generatePayfastPayload]
    returns ends with [&passphrase=], the form-encoded passphrase,
    [&signature=] and the form-encoded signature, so the shared secret
    travels with the redirect. *)
Theorem redirect_url_carries_passphrase env order params :
  truthy_str (PAYFAST_PASSPHRASE env) = true →
  payfastParams env order = Some params →
  ∃ pr before,
    generatePayfastPayload env order = Some pr ∧
    pr_status pr = Some "pending" ∧
    pr_redirectUrl pr
    = Some (js_string (PAYFAST_URL env) +:+ "?" +:+ before
            +:+ "&passphrase=" +:+ form_urlencode (js_string (PAYFAST_PASSPHRASE env))
            +:+ "&signature=" +:+ form_urlencode (payfastSignature params)).
Proof.
  intros Hp Hparams.
  destruct (payfastParams_secret _ _ _ Hp Hparams) as (plain & Hne & ->).
  set (pass := ("passphrase", js_string (PAYFAST_PASSPHRASE env))) in *.
  set (sig := payfastSignature (plain ++ [pass])%list).
  set (f := fun kv : string * string =>
              form_urlencode (fst kv) +:+ "=" +:+ form_urlencode (snd kv)).
  unfold generatePayfastPayload. rewrite Hparams. fold sig.
  eexists. exists (join "&" (map f plain)).
  split; [done|]. split; [done|]. cbn [pr_redirectUrl]. f_equal.
  rewrite obj_set_fresh.
  2:{ rewrite map_app. apply not_elem_of_app. split; [|by intros [[=]|?%elem_of_nil]%elem_of_cons].
      destruct Hne as [-> _]. simpl.
      intros H. repeat (apply elem_of_cons in H as [[=]|H]). by apply elem_of_nil in H. }
  unfold URLSearchParams. fold f. rewrite !map_app. cbn [map].
  assert (Hmf : map f plain ≠ []) by (destruct plain; [by destruct Hne|done]).
  rewrite join_snoc by (by destruct (map f plain)).
  rewrite join_snoc by done.
  rewrite !append_assoc. reflexivity.
Qed.

Lemma redirect_url_carries_passphrase_witness :
  ∃ pr before,
    generatePayfastPayload Shop.env_secret
      (mkOrder "o1" None [] None None 0 (Some 105)
         (buildShippingAddress (Shop.one_flask 105) None)
         (Some "PayFast") None None "Processing" None None) = Some pr ∧
    pr_redirectUrl pr
    = Some ("https://sandbox.payfast.co.za/eng/process" +:+ "?" +:+ before
            +:+ "&passphrase=" +:+ "secret"
            +:+ "&signature=" +:+ "785e81c4b3803b52d4949a188ed3a624").
Proof.
  destruct (redirect_url_carries_passphrase Shop.env_secret
      (mkOrder "o1" None [] None None 0 (Some 105)
         (buildShippingAddress (Shop.one_flask 105) None)
         (Some "PayFast") None None "Processing" None None)
      (default [] (payfastParams Shop.env_secret
         (mkOrder "o1" None [] None None 0 (Some 105)
            (buildShippingAddress (Shop.one_flask 105) None)
            (Some "PayFast") None None "Processing" None None))))
    as (pr & before & Hgen & _ & Hurl).
  - reflexivity.
  - vm_compute. reflexivity.
  - exists pr, before. split; [exact Hgen|]. rewrite Hurl.
    vm_compute. reflexivity.
Defined.

(* ===================================================================== *)
(** ** The restock, and what the loop writes when the store has moved on *)
(* ===================================================================== *)

Lemma restocked_Permutation k (ois ois' : list OrderItem) :
  ois ≡ₚ ois' → restocked k ois = restocked k ois'.
Proof.
  induction 1 as [|x l l' _ IH|x y l|l1 l2 l3 _ IH1 _ IH2]; simpl; lia.
Qed.

(** X14.  [restoreStock] adds to every stored product the quantities of
    the order items that name it and does nothing else: it creates no
    product (an item whose product is gone is skipped), keeps names and
    prices, and its result does not depend on the order of the items. *)
Theorem restoreStock_Permutation (ois ois' : list OrderItem)
  (ps : gmap string Product) :
  ois ≡ₚ ois' →
  restoreStock ois ps = restoreStock ois' ps ∧
  dom (restoreStock ois ps) = dom ps ∧
  (∀ k, stock_of (restoreStock ois ps) k
        = (fun s => s + restocked k ois) <$> stock_of ps k) ∧
  (∀ k, p_price <$> restoreStock ois ps !! k = p_price <$> ps !! k) ∧
  (∀ k, p_name <$> restoreStock ois ps !! k = p_name <$> ps !! k).
Proof.
  intros Hp. split; [|split; [|split; [|split]]].
  - apply map_eq. intros k. rewrite !restoreStock_lookup.
    by rewrite (restocked_Permutation k _ _ Hp).
  - apply set_eq. intros k. rewrite !elem_of_dom, restoreStock_lookup.
    destruct (ps !! k); simpl; split; intros [? ?]; eauto; done.
  - intros k. unfold stock_of. rewrite restoreStock_lookup.
    by destruct (ps !! k).
  - intros k. rewrite restoreStock_lookup. by destruct (ps !! k).
  - intros k. rewrite restoreStock_lookup. by destruct (ps !! k).
Qed.

Lemma restoreStock_Permutation_witness :
  restoreStock [mkOrderItem "a" "Flask A" 2 100 None;
                mkOrderItem "gone" "Old flask" 1 50 None;
                mkOrderItem "b" "Flask B" 1 40 None] (products Shop.db)
  = restoreStock [mkOrderItem "b" "Flask B" 1 40 None;
                  mkOrderItem "a" "Flask A" 2 100 None;
                  mkOrderItem "gone" "Old flask" 1 50 None] (products Shop.db).
Proof.
  refine (proj1 (restoreStock_Permutation _ _ (products Shop.db) _)).
  etrans; [apply perm_skip, perm_swap|]. apply perm_swap.
Defined.

(** Whether [item] makes the loop write the stock of product [k]. *)
Definition writes (k : string) (items : list Item) : bool :=
  existsb (fun it => String.eqb (i_id it) k && negb (i_quantity it =? 0)) items.

Lemma demand_no_write k items : writes k items = false → demand k items = 0.
Proof.
  unfold writes. induction items as [|it items IH]; simpl; [done|].
  intros [H1 H2]%orb_false_elim. rewrite IH by done.
  destruct (String.eqb (i_id it) k); simpl in *; [|lia].
  apply negb_false_iff, Z.eqb_eq in H1. lia.
Qed.

(** The loop decides on the documents it holds and writes what it
    computed from them; [ps] is only written to. *)
Lemma processOrderItems_from_blind items :
  ∀ (found ps : gmap string Product) ois c ps' r,
    processOrderItems_from items found ps ois c = (ps', inr r) →
    ∀ k, ps' !! k
         = match found !! k with
           | Some pf =>
               (fun p => if writes k items
                         then set_stock (p_stock pf - demand k items) p else p)
                 <$> ps !! k
           | None => ps !! k
           end.
Proof.
  induction items as [|item rest IH]; intros found ps ois c ps' r; simpl.
  - intros [= <- <-] k. destruct (found !! k); [|done].
    by destruct (ps !! k).
  - destruct (processItem item found ps) as [e|[[[found1 ps1] oi] amount]] eqn:E;
      [done|].
    apply processItem_inr in E as (product & Hf & Hle & -> & -> & -> & ->).
    intros Hrec k. rewrite (IH _ _ _ _ _ _ Hrec k). clear IH Hrec.
    unfold Product_save. rewrite lookup_insert.
    destruct (String.eqb_spec (i_id item) k) as [<-|Hne].
    + rewrite decide_True by done. rewrite Hf. simpl.
      destruct (Z.eqb_spec (i_quantity item) 0) as [Hq|Hq]; simpl.
      * destruct (ps !! i_id item) as [p|]; simpl; [|done].
        destruct (writes (i_id item) rest); [|done]. do 2 f_equal. lia.
      * rewrite lookup_alter, decide_True by done.
        destruct (ps !! i_id item) as [p|]; simpl; [|done]. f_equal.
        destruct (writes (i_id item) rest) eqn:Hw.
        -- rewrite set_stock_set_stock. f_equal. lia.
        -- rewrite (demand_no_write _ _ Hw). f_equal. lia.
    + rewrite decide_False by done.
      assert (Hps1 : (if negb (i_quantity item =? 0)
                      then alter (set_stock (p_stock product - i_quantity item))
                                 (i_id item) ps
                      else ps) !! k = ps !! k).
      { destruct (negb _); [|done]. by rewrite lookup_alter_ne. }
      simpl. rewrite Hps1. destruct (found !! k) as [pf|]; [|done].
      destruct (ps !! k); simpl; [|done].
      destruct (writes k rest); [|done]. f_equal; f_equal; lia.
Qed.

Lemma processItem_decision item (found ps1 ps2 : gmap string Product) :
  match processItem item found ps1, processItem item found ps2 with
  | inl e1, inl e2 => e1 = e2
  | inr (f1, _, oi1, a1), inr (f2, _, oi2, a2) => f1 = f2 ∧ oi1 = oi2 ∧ a1 = a2
  | _, _ => False
  end.
Proof.
  unfold processItem. destruct (found !! i_id item) as [p|]; [|done].
  by destruct (p_stock p <? i_quantity item).
Qed.

(** X15.  [processOrderItems] never reads the store again after
    [Product.find]: whether it throws, and the order items and subtotal it
    returns, depend on the documents it was given only, whatever the store
    holds.  When it goes through, the stock it leaves for a product it
    wrote is the stock of the document it read minus the quantity asked,
    whatever another request stored in between, and the products it did
    not write are as the store had them. *)
Theorem processOrderItems_reads_once items (found ps1 ps2 : gmap string Product) :
  snd (processOrderItems items found ps1) = snd (processOrderItems items found ps2) ∧
  (∀ ps' r, processOrderItems items found ps1 = (ps', inr r) →
     ∀ k, (writes k items = false → ps' !! k = ps1 !! k) ∧
          (writes k items = true → is_Some (ps1 !! k) →
           ∃ pf, found !! k = Some pf ∧
                 stock_of ps' k = Some (p_stock pf - demand k items))).
Proof.
  split.
  - unfold processOrderItems. generalize (@nil OrderItem) 0.
    revert found ps1 ps2.
    induction items as [|item rest IH]; intros found ps1 ps2 ois c; simpl; [done|].
    pose proof (processItem_decision item found ps1 ps2) as Hd.
    destruct (processItem item found ps1) as [e1|[[[f1 q1] oi1] a1]],
             (processItem item found ps2) as [e2|[[[f2 q2] oi2] a2]]; try done.
    + simpl. by rewrite Hd.
    + destruct Hd as (-> & -> & ->). apply IH.
  - unfold processOrderItems. intros ps' r Hrun k.
    pose proof (processOrderItems_from_blind _ _ _ _ _ _ _ Hrun k) as Hk.
    split.
    + intros Hw. rewrite Hk, Hw. destruct (found !! k); [|done].
      by destruct (ps1 !! k).
    + intros Hw [p Hp]. rewrite Hw, Hp in Hk.
      destruct (found !! k) as [pf|] eqn:Hf.
      * exists pf. split; [done|]. unfold stock_of. by rewrite Hk.
      * exfalso. clear Hk. revert Hrun Hw Hf. unfold processOrderItems.
        generalize (@nil OrderItem) 0. revert found ps1 Hp.
        induction items as [|item rest IH]; intros found ps1 Hp ois c; simpl; [done|].
        destruct (processItem item found ps1) as [e|[[[f1 q1] oi] a]] eqn:E; [done|].
        apply processItem_inr in E as (product & Hfi & _ & -> & -> & _).
        intros Hrec Hw Hf.
        destruct (String.eqb_spec (i_id item) k) as [<-|Hne]; [congruence|].
        simpl in Hw. eapply IH; [|exact Hrec|exact Hw|].
        -- unfold Product_save. destruct (negb _); [|exact Hp].
           by rewrite lookup_alter_ne.
        -- by rewrite lookup_insert_ne.
Qed.

Lemma processOrderItems_reads_once_witness :
  ∃ pf, Product_find ["a"] (products Shop.db) !! "a" = Some pf ∧
        stock_of (fst (processOrderItems [mkItem "a" 2]
                         (Product_find ["a"] (products Shop.db))
                         (<["a" := mkProduct "Flask A" 100 1 None]> (products Shop.db))))
                 "a"
        = Some (p_stock pf - demand "a" [mkItem "a" 2]).
Proof.
  refine (proj2 (proj2 (processOrderItems_reads_once [mkItem "a" 2]
     (Product_find ["a"] (products Shop.db))
     (<["a" := mkProduct "Flask A" 100 1 None]> (products Shop.db))
     (products Shop.db)) _
     ([mkOrderItem "a" "Flask A" 2 100 None], 200) _ "a") _ _).
  - vm_compute. reflexivity.
  - reflexivity.
  - eexists. vm_compute. reflexivity.
Defined.

(* ===================================================================== *)
(** ** Listing orders and the sales figures                              *)
(* ===================================================================== *)

(** The list queries sort by [createdAt], which the modelled order
    document does not carry: they take the collection as
    [Order.find().sort('-createdAt')] returns it, newest first. *)

(** [orderController.getUserOrders]: [Order.find({ user: req.user._id })];
    [None] is the 500 answered when there is no [req.user]. *)
Definition getUserOrders (newestFirst : list Order) (user : option User)
  : option (list Order) :=
  match user with
  | None => None
  | Some u =>
      Some (List.filter (fun o => bool_decide (o_user o = Some (u_id u))) newestFirst)
  end.

(** The answer of [getAllOrders]. *)
Record OrdersPage := mkOrdersPage {
  op_orders : list Order;
  op_totalPages : option Z;
  op_currentPage : Z
}.

(** [.skip(skip).limit(limit)] on a sorted result: a negative skip is an
    error of the database, a limit of 0 is no limit, a negative limit
    counts as its absolute value. *)
Definition skip_limit (skip limit : Z) (l : list Order) : option (list Order) :=
  if skip <? 0 then None
  else
    let rest := drop (Z.to_nat skip) l in
    Some (if limit =? 0 then rest else take (Z.to_nat (Z.abs limit)) rest).

(** [Math.ceil(count / limit)]; [None] is the [Infinity] or [NaN] of a
    division by 0, which the JSON answer renders as [null]. *)
Definition ceil_div (count limit : Z) : option Z :=
  if limit =? 0 then None else Some (- ((- count) / limit)).

(** The orders that [{ status }] matches; every order when no status, or
    an empty one, is asked for. *)
Definition matchingStatus (status : option string) (l : list Order) : list Order :=
  if truthy_str status
  then List.filter (fun o => String.eqb (o_status o) (default "" status)) l
  else l.

(** [orderController.getAllOrders]; [page] and [limit] default to 1 and
    20, [None] is the 500 of the [catch]. *)
Definition getAllOrders (newestFirst : list Order) (page limit : option Z)
  (status : option string) : option OrdersPage :=
  let page := default 1 page in
  let limit := default 20 limit in
  let matching := matchingStatus status newestFirst in
  match skip_limit ((page - 1) * limit) (limit * 1) matching with
  | None => None
  | Some orders =>
      Some {| op_orders := orders;
              op_totalPages := ceil_div (Z.of_nat (length matching)) limit;
              op_currentPage := page |}
  end.

(** The figures of [getSalesStats]. *)
Record SalesStats := mkSalesStats {
  totalOrders : Z;
  couponsUsed : Z;
  totalSales : Z;
  totalShippingCost : Z;
  totalRevenue : Z
}.

Definition noSales : SalesStats := mkSalesStats 0 0 0 0 0.

Definition sum_of {A} (f : A → Z) (l : list A) : Z :=
  fold_right (fun x acc => f x + acc) 0 l.

(** The [$group] stage over the orders the [$match] stage lets through:
    one document with the five sums, none when there is nothing to
    group. *)
Definition salesGroup (matched : list Order) : list SalesStats :=
  match matched with
  | [] => []
  | _ :: _ =>
      [{| totalOrders := sum_of (fun _ => 1) matched;
          couponsUsed := sum_of (fun o => match o_couponUsed o with
                                          | Some _ => 1
                                          | None => 0
                                          end) matched;
          totalSales := sum_of (fun o => default 0 (o_subtotal o)) matched;
          totalShippingCost := sum_of (fun o => default 0 (o_shippingCost o)) matched;
          totalRevenue := sum_of (fun o => default 0 (o_totalAmount o)) matched |}]
  end.

(** [getSalesStats] from the aggregation on: [stats[0] || { ...zeros }]. *)
Definition getSalesStats (matched : list Order) : SalesStats :=
  match salesGroup matched with
  | stats :: _ => stats
  | [] => noSales
  end.

Definition addStats (a b : SalesStats) : SalesStats :=
  {| totalOrders := totalOrders a + totalOrders b;
     couponsUsed := couponsUsed a + couponsUsed b;
     totalSales := totalSales a + totalSales b;
     totalShippingCost := totalShippingCost a + totalShippingCost b;
     totalRevenue := totalRevenue a + totalRevenue b |}.

(** The stored orders are the ones the collection lists, each under its
    own id. *)
Definition lists_orders (l : list Order) (db : DB) : Prop :=
  ∀ o, o ∈ l ↔ orders db !! o_id o = Some o.

(** X16.  What [getUserOrders] lists for a user are that user's orders
    and no others, in the order of the collection; each of them can be
    fetched by that user with [getOrderById], and the order of a guest
    checkout is in nobody's list. *)
Theorem getUserOrders_own newestFirst db u :
  lists_orders newestFirst db →
  ∃ mine,
    getUserOrders newestFirst (Some u) = Some mine ∧
    mine `sublist_of` newestFirst ∧
    (∀ o, o ∈ mine ↔ o ∈ newestFirst ∧ o_user o = Some (u_id u)) ∧
    (∀ o, o ∈ mine → getOrderById db (o_id o) (Some u) = Retrieved o) ∧
    (∀ o, o_user o = None → o ∉ mine).
Proof.
  intros Hl. eexists. split; [done|].
  assert (Hin : ∀ o, o ∈ List.filter (fun o => bool_decide (o_user o = Some (u_id u)))
                              newestFirst
                     ↔ o ∈ newestFirst ∧ o_user o = Some (u_id u)).
  { intros o. rewrite !list_elem_of_In, filter_In, bool_decide_eq_true. done. }
  split; [|split; [done|split]].
  - clear. induction newestFirst as [|o l IH]; simpl; [done|].
    destruct (bool_decide _); by constructor.
  - intros o [Ho Hu]%Hin. apply Hl in Ho.
    unfold getOrderById, authorizeOrderAccess. rewrite Ho.
    by rewrite bool_decide_eq_true_2.
  - intros o Hg [_ Hu]%Hin. congruence.
Qed.

Lemma getUserOrders_own_witness :
  ∃ mine,
    getUserOrders
      [mkOrder "o1" (Some "u1") [] None None 0 (Some 105)
         (buildShippingAddress (Shop.one_flask 105) None)
         (Some "COD") None None "Processing" None None] (Some Shop.customer)
    = Some mine ∧ length mine = 1%nat.
Proof.
  destruct (getUserOrders_own
      [mkOrder "o1" (Some "u1") [] None None 0 (Some 105)
         (buildShippingAddress (Shop.one_flask 105) None)
         (Some "COD") None None "Processing" None None]
      {| products := ∅;
         orders := <["o1" := mkOrder "o1" (Some "u1") [] None None 0 (Some 105)
                      (buildShippingAddress (Shop.one_flask 105) None)
                      (Some "COD") None None "Processing" None None]> ∅;
         coupons := ∅ |} Shop.customer) as (mine & Hm & _).
  - intros o. simpl. split.
    + intros [->|?%elem_of_nil]%elem_of_cons; [|done]. simpl.
      by rewrite lookup_insert_eq.
    + intros Ho. destruct (decide (o_id o = "o1")) as [Hid|Hid].
      * rewrite Hid, lookup_insert_eq in Ho. injection Ho as <-. left.
      * by rewrite lookup_insert_ne, lookup_empty in Ho.
  - exists mine. split; [exact Hm|]. by injection Hm as <-.
Defined.

Lemma pages_concat (n : nat) (m : list Order) (k : nat) :
  concat (map (fun i => take n (drop (i * n) m)) (seq 0 k)) = take (k * n) m.
Proof.
  induction k as [|k IH]; [done|].
  rewrite seq_S, map_app, concat_app, IH. simpl. rewrite app_nil_r.
  rewrite take_take_drop. f_equal. lia.
Qed.

(** X17.  With a page size of at least 1, the pages of [getAllOrders] cut
    the matching orders into consecutive runs: every page from 1 on is
    answered, holds at most [limit] orders and reports the same
    [totalPages], the least number of pages that hold them all; the pages
    before the last are full, the pages after it are empty, and pages 1
    to [totalPages] put end to end are exactly the matching orders, none
    lost and none twice. *)
Theorem getAllOrders_pages newestFirst limit status :
  1 ≤ limit →
  ∃ tp,
    0 ≤ tp ∧
    (tp - 1) * limit < Z.of_nat (length (matchingStatus status newestFirst)) ≤ tp * limit ∧
    (∀ p, 1 ≤ p →
       ∃ os, getAllOrders newestFirst (Some p) (Some limit) status
             = Some (mkOrdersPage os (Some tp) p) ∧
             Z.of_nat (length os) ≤ limit ∧
             (p < tp → Z.of_nat (length os) = limit) ∧
             (tp < p → os = [])) ∧
    concat (map (fun i : nat =>
                   default [] (op_orders <$>
                     getAllOrders newestFirst (Some (Z.of_nat (S i))) (Some limit) status))
                (seq 0 (Z.to_nat tp)))
    = matchingStatus status newestFirst.
Proof.
  intros Hlimit.
  set (m := matchingStatus status newestFirst).
  set (len := Z.of_nat (length m)).
  set (tp := - ((- len) / limit)).
  assert (Hdiv : (tp - 1) * limit < len ≤ tp * limit).
  { pose proof (Z.div_mod (- len) limit ltac:(lia)) as Hdm.
    pose proof (Z.mod_pos_bound (- len) limit ltac:(lia)) as Hmod.
    unfold tp. nia. }
  assert (Htp : 0 ≤ tp) by (unfold len in *; nia).
  assert (Hpage : ∀ p, 1 ≤ p →
            getAllOrders newestFirst (Some p) (Some limit) status
            = Some (mkOrdersPage
                      (take (Z.to_nat limit) (drop (Z.to_nat ((p - 1) * limit)) m))
                      (Some tp) p)).
  { intros p Hp. unfold getAllOrders, skip_limit, ceil_div. simpl. fold m.
    destruct (Z.ltb_spec ((p - 1) * limit) 0); [nia|].
    rewrite Z.mul_1_r.
    destruct (Z.eqb_spec limit 0); [lia|].
    by rewrite Z.abs_eq by lia. }
  exists tp. split; [done|]. split; [done|]. split.
  - intros p Hp. eexists. split; [by apply Hpage|].
    rewrite length_take, length_drop. unfold len in *.
    split; [lia|]. split.
    + intros Hlt. nia.
    + intros Hgt. apply length_zero_iff_nil.
      rewrite length_take, length_drop. nia.
  - transitivity (take (Z.to_nat tp * Z.to_nat limit) m);
      [|apply take_ge; unfold len in *; nia].
    rewrite <- pages_concat. f_equal. apply map_ext_in.
    intros i _. rewrite Hpage by lia. simpl. do 2 f_equal. lia.
Qed.

Lemma getAllOrders_pages_witness :
  ∃ tp, 0 ≤ tp ∧
        (tp - 1) * 20 < Z.of_nat (length (matchingStatus (Some "Shipped") [])) ≤ tp * 20.
Proof.
  destruct (getAllOrders_pages [] 20 (Some "Shipped")) as (tp & H0 & H1 & _).
  - lia.
  - exists tp. split; [exact H0|exact H1].
Defined.

Lemma sum_of_app {A} (f : A → Z) (l1 l2 : list A) :
  sum_of f (l1 ++ l2)%list = sum_of f l1 + sum_of f l2.
Proof. induction l1 as [|x l1 IH]; simpl; [done|]. rewrite IH. lia. Qed.

Lemma getSalesStats_sums matched :
  getSalesStats matched
  = {| totalOrders := sum_of (fun _ => 1) matched;
       couponsUsed := sum_of (fun o => match o_couponUsed o with
                                       | Some _ => 1
                                       | None => 0
                                       end) matched;
       totalSales := sum_of (fun o => default 0 (o_subtotal o)) matched;
       totalShippingCost := sum_of (fun o => default 0 (o_shippingCost o)) matched;
       totalRevenue := sum_of (fun o => default 0 (o_totalAmount o)) matched |}.
Proof. by destruct matched. Qed.

(** X18.  The figures of [getSalesStats] add up over any split of the
    matched orders, so the zeros answered when the aggregation groups
    nothing are the sums over no order; [totalOrders] is the number of
    matched orders and [couponsUsed] lies between 0 and it. *)
Theorem getSalesStats_additive matched1 matched2 :
  getSalesStats (matched1 ++ matched2)%list
  = addStats (getSalesStats matched1) (getSalesStats matched2) ∧
  totalOrders (getSalesStats matched1) = Z.of_nat (length matched1) ∧
  0 ≤ couponsUsed (getSalesStats matched1) ≤ totalOrders (getSalesStats matched1).
Proof.
  rewrite !getSalesStats_sums. unfold addStats. simpl.
  rewrite !sum_of_app. split; [done|].
  induction matched1 as [|o l IH]; simpl; [lia|].
  destruct (o_couponUsed o); lia.
Qed.

(** An order as [createOrder] once stored it, whatever has since become
    of its status, payment result and tracking id. *)
Definition placed (o : Order) : Prop :=
  ∃ env _id db user body db' o0,
    createOrder env _id db user body = (db', Created o0) ∧
    o_items o = o_items o0 ∧ o_shippingCost o = o_shippingCost o0 ∧
    o_discount o = o_discount o0 ∧ o_totalAmount o = o_totalAmount o0.

(** X19.  Over orders that [createOrder] stored, the revenue that
    [getSalesStats] reports is the price times quantity of every stored
    order item, plus the reported shipping, less the discounts: it is tied
    to the item snapshots, not to [totalSales], which sums the subtotals
    the clients declared. *)
Theorem getSalesStats_revenue matched :
  (∀ o, o ∈ matched → placed o) →
  totalRevenue (getSalesStats matched)
  = sum_of (fun o => items_total (o_items o)) matched
    + totalShippingCost (getSalesStats matched)
    - sum_of o_discount matched.
Proof.
  rewrite getSalesStats_sums. simpl.
  induction matched as [|o l IH]; intros Hall; simpl; [done|].
  destruct (Hall o) as (env & _id & db & user & body & db' & o0 & Hc & Hi & Hs & Hd & Ht);
    [left|].
  apply createOrder_persisted_amounts in Hc as (_ & _ & s & Hs0 & Ht0).
  rewrite Ht, Ht0, Hs, Hs0, Hi, Hd. simpl.
  rewrite IH; [lia|].
  intros o' Ho'. apply Hall. by right.
Qed.

Lemma getSalesStats_revenue_witness :
  ∃ o, snd (createOrder Shop.env "o1" Shop.db None
              (Shop.body [mkItem "a" 1] (Some 50) (Some 10) (Some 5) (Some 105) None))
       = Created o ∧
       totalRevenue (getSalesStats [o]) = 105 ∧
       totalSales (getSalesStats [o]) = 50.
Proof.
  destruct (createOrder Shop.env "o1" Shop.db None
              (Shop.body [mkItem "a" 1] (Some 50) (Some 10) (Some 5) (Some 105) None))
    as [db' r] eqn:Hc.
  pose proof Hc as Hr. vm_compute in Hr. injection Hr as _ <-.
  eexists. split; [reflexivity|]. split; [|vm_compute; reflexivity].
  rewrite getSalesStats_revenue; [vm_compute; reflexivity|].
  intros o [->|?%elem_of_nil]%elem_of_cons; [|done].
  exists Shop.env, "o1", Shop.db, None,
    (Shop.body [mkItem "a" 1] (Some 50) (Some 10) (Some 5) (Some 105) None), db'.
  eexists.
  split; [exact Hc|]. by repeat split.
Defined.

(* ===================================================================== *)
(** ** The authentication middlewares ([middlewares/auth.js])            *)
(* ===================================================================== *)

(** What [jwt.verify] does with a token: the payload's [id], or one of
    the errors it throws. *)
Inductive Verdict :=
| Decoded (id : string)
| TokenExpiredError
| JsonWebTokenError.

(** The parts of the request the middlewares read. *)
Record AuthRequest := mkAuthRequest {
  authorization : option string;
  accessToken : option string
}.

(** A middleware either calls [next()], with the [req.user] it set, or
    answers itself. *)
Inductive Passage :=
| Next (user : option User)
| Denied (code : Z) (reason : string).

(** [String.prototype.split] on one character. *)
Fixpoint split_on (c : ascii) (s : string) : list string :=
  match s with
  | EmptyString => [EmptyString]
  | String a rest =>
      if Ascii.eqb a c then EmptyString :: split_on c rest
      else match split_on c rest with
           | [] => [String a EmptyString]
           | w :: ws => String a w :: ws
           end
  end.

(** The token both middlewares start from: the second word of an
    [Authorization] header that starts with [Bearer], else the
    [accessToken] cookie. *)
Definition bearerOrCookie (req : AuthRequest) : option string :=
  match authorization req with
  | Some header =>
      if String.prefix "Bearer" header then split_on " " header !! 1%nat
      else if truthy_str (accessToken req) then accessToken req else None
  | None => if truthy_str (accessToken req) then accessToken req else None
  end.

Section Auth.

Variable jwt_verify : string → Verdict.
Variable users : gmap string User.

(** [protect]. *)
Definition protect (req : AuthRequest) : Passage :=
  let token := bearerOrCookie req in
  if negb (truthy_str token) then Denied 401 "Not authenticated"
  else
    match jwt_verify (default "" token) with
    | Decoded id => Next (users !! id)
    | TokenExpiredError => Denied 401 "Token expired"
    | JsonWebTokenError => Denied 401 "Invalid access token"
    end.

(** [admin], on the [req.user] it finds. *)
Definition admin (user : option User) : Passage :=
  match user with
  | Some u =>
      if String.eqb (u_role u) "admin" then Next user
      else Denied 403 "Not authorized as admin"
  | None => Denied 403 "Not authorized as admin"
  end.

(** [optionalAuth]. *)
Definition optionalAuth (req : AuthRequest) : Passage :=
  let token := bearerOrCookie req in
  if negb (truthy_str token) then Next None
  else
    match jwt_verify (default "" token) with
    | Decoded id => Next (users !! id)
    | _ => Next None
    end.

(** The chain [protect, admin] of the admin routes. *)
Definition protect_admin (req : AuthRequest) : Passage :=
  match protect req with
  | Next user => admin user
  | denied => denied
  end.

End Auth.

(** X20.  [optionalAuth] lets every request through, and sets the very
    [req.user] that [protect] would have set whenever [protect] lets the
    request through; every request that [protect] answers itself is
    answered 401 and goes through [optionalAuth] as a guest. *)
Theorem optionalAuth_agrees_with_protect jwt_verify users req :
  match protect jwt_verify users req with
  | Next user => optionalAuth jwt_verify users req = Next user
  | Denied code _ => code = 401 ∧ optionalAuth jwt_verify users req = Next None
  end.
Proof.
  unfold protect, optionalAuth.
  destruct (negb _); [done|].
  by destruct (jwt_verify _).
Qed.

Lemma split_on_one_word (s : string) :
  forallb (fun a => negb (Ascii.eqb a " ")) (list_ascii_of_string s) = true →
  split_on " " s = [s].
Proof.
  induction s as [|a s IH]; simpl; [done|].
  intros [Ha Hs]%andb_prop. apply negb_true_iff in Ha. rewrite Ha.
  by rewrite (IH Hs).
Qed.

(** X21.  An [Authorization] header that starts with [Bearer] decides
    alone: [protect] then never looks at the [accessToken] cookie.  A
    header of one word only, such as a bare [Bearer], is answered 401
    'Not authenticated' even when the cookie holds a token that verifies. *)
Theorem bearer_header_shadows_cookie jwt_verify users header cookie :
  String.prefix "Bearer" header = true →
  protect jwt_verify users (mkAuthRequest (Some header) cookie)
  = protect jwt_verify users (mkAuthRequest (Some header) None) ∧
  (forallb (fun a => negb (Ascii.eqb a " ")) (list_ascii_of_string header) = true →
   protect jwt_verify users (mkAuthRequest (Some header) cookie)
   = Denied 401 "Not authenticated").
Proof.
  intros Hb. unfold protect, bearerOrCookie. simpl. rewrite Hb.
  split; [done|]. intros Hw. by rewrite (split_on_one_word _ Hw).
Qed.

Lemma bearer_header_shadows_cookie_witness :
  protect (fun _ => Decoded "u1") (<["u1" := Shop.customer]> ∅)
    (mkAuthRequest (Some "Bearer") (Some "token"))
  = Denied 401 "Not authenticated" ∧
  protect (fun _ => Decoded "u1") (<["u1" := Shop.customer]> ∅)
    (mkAuthRequest None (Some "token"))
  = Next (Some Shop.customer).
Proof.
  split; [|reflexivity].
  apply (bearer_header_shadows_cookie (fun _ => Decoded "u1")
           (<["u1" := Shop.customer]> ∅) "Bearer" (Some "token"));
    reflexivity.
Defined.

(** X22.  The chain [protect, admin] lets a request through exactly when
    its token is not empty, verifies, and names a stored user whose role
    is [admin], and then [req.user] is that user.  Every other request is
    answered 401 or 403; a token that verifies but names a user that is
    no longer stored passes [protect] with no user and is answered 403. *)
Theorem protect_admin_passes jwt_verify users req :
  (∀ user,
     protect_admin jwt_verify users req = Next user ↔
     ∃ token id u,
       bearerOrCookie req = Some token ∧ token ≠ "" ∧
       jwt_verify token = Decoded id ∧ users !! id = Some u ∧
       u_role u = "admin" ∧ user = Some u) ∧
  (∀ code reason,
     protect_admin jwt_verify users req = Denied code reason →
     code = 401 ∨ code = 403) ∧
  (∀ token id,
     bearerOrCookie req = Some token → token ≠ "" →
     jwt_verify token = Decoded id → users !! id = None →
     protect jwt_verify users req = Next None ∧
     protect_admin jwt_verify users req = Denied 403 "Not authorized as admin").
Proof.
  unfold protect_admin, protect, admin. split; [|split].
  - intros user. split.
    + intros H.
      destruct (bearerOrCookie req) as [token|]; simpl in H; [|done].
      destruct (String.eqb_spec token "") as [|Hne]; simpl in H; [done|].
      destruct (jwt_verify token) as [id| |] eqn:Hv; [|done..].
      destruct (users !! id) as [u|] eqn:Hu; [|done].
      destruct (String.eqb_spec (u_role u) "admin") as [Hr|]; [|done].
      injection H as <-. by exists token, id, u.
    + intros (token & id & u & -> & Hne & Hv & Hu & Hr & ->). simpl.
      apply String.eqb_neq in Hne. rewrite Hne. simpl.
      by rewrite Hv, Hu, Hr.
  - intros code reason H.
    destruct (negb _); [injection H as <- _; by left|].
    destruct (jwt_verify _) as [id| |]; [|injection H as <- _; by left..].
    destruct (users !! id) as [u|]; [|injection H as <- _; by right].
    destruct (String.eqb _ _); [done|injection H as <- _; by right].
  - intros token id -> Hne Hv Hu. simpl.
    apply String.eqb_neq in Hne. rewrite Hne. simpl.
    by rewrite Hv, Hu.
Qed.

(** The answers of [GET /me]: 200 with the user that [getMe] looked up,
    the answer of [protect], or the 500 of the handler's [catch]. *)
Inductive MeResponse :=
| CurrentUser (user : option User)
| MeDenied (code : Z) (reason : string)
| MeError.

(** [getMe]: [User.findById(req.user.id)]; reading [id] of no user
    throws. *)
Definition getMe (users : gmap string User) (user : option User) : MeResponse :=
  match user with
  | None => MeError
  | Some u => CurrentUser (users !! u_id u)
  end.

(** [router.get('/me', protect, getMe)]. *)
Definition me_route (jwt_verify : string → Verdict) (users : gmap string User)
  (req : AuthRequest) : MeResponse :=
  match protect jwt_verify users req with
  | Next user => getMe users user
  | Denied code reason => MeDenied code reason
  end.

(** X23.  Behind [protect], [GET /me] with a token that verifies answers
    200 with the stored user the token names, when users are stored
    under their own id; when that user is no longer stored the request
    passes [protect] all the same and [getMe] answers 500, not 401. *)
Theorem me_route_with_valid_token jwt_verify users req token id :
  bearerOrCookie req = Some token →
  token ≠ "" →
  jwt_verify token = Decoded id →
  (∀ k u, users !! k = Some u → u_id u = k) →
  match users !! id with
  | Some u => me_route jwt_verify users req = CurrentUser (Some u)
  | None => me_route jwt_verify users req = MeError
  end.
Proof.
  intros Htok Hne Hv Hkeys. unfold me_route, protect. rewrite Htok. simpl.
  apply String.eqb_neq in Hne. rewrite Hne. simpl. rewrite Hv.
  destruct (users !! id) as [u|] eqn:Hu; simpl; [|done].
  by rewrite (Hkeys _ _ Hu), Hu.
Qed.

Lemma me_route_with_valid_token_witness :
  me_route (fun _ => Decoded "u1") ∅ (mkAuthRequest (Some "Bearer token") None)
  = MeError.
Proof.
  assert ("token" ≠ "") as Hne by (apply String.eqb_neq; reflexivity).
  assert (∀ k u, (∅ : gmap string User) !! k = Some u → u_id u = k) as Hkeys
    by (intros k u Hk; by rewrite lookup_empty in Hk).
  exact (me_route_with_valid_token (fun _ => Decoded "u1") ∅
           (mkAuthRequest (Some "Bearer token") None) "token" "u1"
           eq_refl Hne eq_refl Hkeys).
Defined.

(* ===================================================================== *)
(** ** Products by categories ([productController.js])                   *)
(* ===================================================================== *)

(** The answers of [getProductsByCategories]: 200 with the selected
    products, each under its [_id], or the status of an error. *)
Inductive ProductsResponse :=
| ProductsRetrieved (selectedProducts : list (string * Product))
| ProductsFailed (code : Z).

(** [Array.prototype.findIndex]; [None] is its -1. *)
Fixpoint findIndex {A} (f : A → bool) (l : list A) : option nat :=
  match l with
  | [] => None
  | x :: rest => if f x then Some 0%nat else S <$> findIndex f rest
  end.

(** [Array.prototype.filter] with a callback that reads the index too. *)
Fixpoint filter_index {A} (f : A → nat → bool) (index : nat) (l : list A) : list A :=
  match l with
  | [] => []
  | x :: rest =>
      if f x index then x :: filter_index f (S index) rest
      else filter_index f (S index) rest
  end.

(** [products.filter((product, index, self) => index ===
    self.findIndex((p) => p._id.toString() === product._id.toString()))]. *)
Definition uniqueProducts (products : list (string * Product))
  : list (string * Product) :=
  filter_index
    (fun product index =>
       bool_decide (findIndex (fun p => String.eqb p.1 product.1) products = Some index))
    0 products.

(** [[a[i], a[j]] = [a[j], a[i]]]; [None] when an index is past the end,
    where the source would write [undefined] into the array. *)
Definition swap {A} (i j : nat) (l : list A) : option (list A) :=
  match l !! i, l !! j with
  | Some x, Some y => Some (<[j := x]> (<[i := y]> l))
  | _, _ => None
  end.

Section ProductsByCategories.

(** [Product.find({ categories: category })]; [None] when the query
    rejects. *)
Variable Product_find_by_category : string → option (list (string * Product)).

(** [Math.floor(Math.random() * n)] at the given call, a whole number
    below [n]. *)
Variable random_below : nat → nat → nat.
Hypothesis random_below_lt : ∀ call n, (0 < n)%nat → (random_below call n < n)%nat.

(** The loop over [categoryList]. *)
Fixpoint collectProducts (categoryList : list string)
  (products : list (string * Product)) : option (list (string * Product)) :=
  match categoryList with
  | [] => Some products
  | category :: rest =>
      match Product_find_by_category category with
      | None => None
      | Some categoryProducts =>
          collectProducts rest (products ++ categoryProducts)%list
      end
  end.

(** [for (let i = ...; i > 0; i--)] of the shuffle, from [i] down. *)
Fixpoint shuffle_from {A} (i call : nat) (l : list A) : option (list A) :=
  match i with
  | O => Some l
  | S i' =>
      match swap i (random_below call (i + 1)) l with
      | Some l' => shuffle_from i' (S call) l'
      | None => None
      end
  end.

(** [getProductsByCategories], on a [categories] query that is a string
    or absent; [None] when the shuffle leaves the array. *)
Definition getProductsByCategories (categories : option string)
  : option ProductsResponse :=
  if negb (truthy_str categories) then Some (ProductsFailed 400)
  else
    match collectProducts (split_on "," (default "" categories)) [] with
    | None => Some (ProductsFailed 500)
    | Some products =>
        let unique := uniqueProducts products in
        match shuffle_from (length unique - 1) 0 unique with
        | Some shuffled => Some (ProductsRetrieved (take 5 shuffled))
        | None => None
        end
    end.

Lemma collectProducts_elem_of categoryList :
  ∀ products all,
    collectProducts categoryList products = Some all →
    ∀ d, d ∈ all ↔
         d ∈ products ∨
         ∃ category found, category ∈ categoryList ∧
                           Product_find_by_category category = Some found ∧ d ∈ found.
Proof.
  induction categoryList as [|c rest IH]; intros products all; simpl.
  - intros [= <-] d. split; [by left|]. intros [?|(? & ? & ?%elem_of_nil & _)]; done.
  - destruct (Product_find_by_category c) as [found|] eqn:Hf; [|done].
    intros H d. rewrite (IH _ _ H d), elem_of_app. split.
    + intros [[?|?]|(c' & f' & ? & ? & ?)]; [by left|right..].
      * exists c, found. split; [left|done].
      * exists c', f'. split; [by right|done].
    + intros [?|(c' & f' & [->|?]%elem_of_cons & Hf' & ?)].
      * by left; left.
      * left; right. congruence.
      * right. by exists c', f'.
Qed.

Lemma collectProducts_fails categoryList :
  ∀ products,
    collectProducts categoryList products = None ↔
    ∃ category, category ∈ categoryList ∧ Product_find_by_category category = None.
Proof.
  induction categoryList as [|c rest IH]; intros products; simpl.
  - split; [done|]. by intros (? & ?%elem_of_nil & _).
  - destruct (Product_find_by_category c) as [found|] eqn:Hf.
    + rewrite IH. split.
      * intros (c' & ? & ?). exists c'. split; [by right|done].
      * intros (c' & [->|?]%elem_of_cons & ?); [congruence|by exists c'].
    + split; [|done]. intros _. exists c. split; [left|done].
Qed.

Lemma shuffle_from_Permutation {A} i :
  ∀ call (l : list A),
    (i < length l)%nat →
    ∃ l', shuffle_from i call l = Some l' ∧ l' ≡ₚ l.
Proof.
  induction i as [|i IH]; intros call l Hi; cbn [shuffle_from].
  - by exists l.
  - set (j := random_below call (S i + 1)).
    assert (Hj : (j < S i + 1)%nat) by (apply random_below_lt; lia).
    unfold swap.
    destruct (lookup_lt_is_Some_2 l (S i) Hi) as [x Hx].
    destruct (lookup_lt_is_Some_2 l j ltac:(lia)) as [y Hy].
    rewrite Hx, Hy.
    destruct (IH (S call) (<[j := x]> (<[S i := y]> l))) as (l' & Hl' & Hp).
    { rewrite !length_insert. lia. }
    exists l'. split; [done|]. rewrite Hp.
    by apply Permutation_insert_swap.
Qed.

End ProductsByCategories.

Lemma findIndex_Some {A} (f : A → bool) (l : list A) n :
  findIndex f l = Some n →
  (∃ x, l !! n = Some x ∧ f x = true) ∧
  ∀ i y, (i < n)%nat → l !! i = Some y → f y = false.
Proof.
  revert n. induction l as [|x l IH]; intros n; simpl; [done|].
  destruct (f x) eqn:Hx.
  - intros [= <-]. split; [by exists x|]. intros; lia.
  - destruct (findIndex f l) as [m|]; simpl; [|done]. intros [= <-].
    destruct (IH m eq_refl) as [Hm Hlt]. split; [done|].
    intros [|i] y Hi; simpl; [congruence|]. apply Hlt. lia.
Qed.

Lemma findIndex_elem_of {A} (f : A → bool) (l : list A) x :
  x ∈ l → f x = true → is_Some (findIndex f l).
Proof.
  induction 1 as [x l|x y l _ IH]; simpl; intros Hx.
  - by rewrite Hx.
  - destruct (f y); [done|]. destruct (IH Hx) as [n ->]. done.
Qed.

Lemma filter_index_sublist {A} (f : A → nat → bool) (l : list A) :
  ∀ index, filter_index f index l `sublist_of` l.
Proof.
  induction l as [|x l IH]; intros index; simpl; [done|].
  destruct (f x index); by constructor.
Qed.

Lemma filter_index_elem_of {A} (f : A → nat → bool) (l : list A) :
  ∀ index x,
    x ∈ filter_index f index l ↔ ∃ n, l !! n = Some x ∧ f x (index + n)%nat = true.
Proof.
  induction l as [|y l IH]; intros index x; simpl.
  - split; [by intros ?%elem_of_nil|]. by intros (? & ? & _).
  - assert (Hrest : x ∈ filter_index f (S index) l ↔
                    ∃ n, l !! n = Some x ∧ f x (index + S n)%nat = true).
    { rewrite IH. by setoid_rewrite Nat.add_succ_r. }
    destruct (f y index) eqn:Hy.
    + rewrite elem_of_cons, Hrest. split.
      * intros [->|(n & ? & ?)]; [exists 0%nat|exists (S n)]; [|done].
        by rewrite Nat.add_0_r.
      * intros ([|n] & Hn & Hf); simpl in Hn; [left; congruence|right; by exists n].
    + rewrite Hrest. split.
      * intros (n & ? & ?). by exists (S n).
      * intros ([|n] & Hn & Hf); simpl in Hn; [|by exists n].
        injection Hn as <-. rewrite Nat.add_0_r in Hf. congruence.
Qed.

(** Past the first [index] entries, the filter keeps no two products of
    one [_id], and none whose [_id] one of those entries has. *)
Lemma filter_index_NoDup (self : list (string * Product)) :
  ∀ rest before,
    self = (before ++ rest)%list →
    NoDup (filter_index
             (fun product index =>
                bool_decide (findIndex (fun p => String.eqb p.1 product.1) self
                             = Some index))
             (length before) rest).*1.
Proof.
  induction rest as [|x rest IH]; intros before Hself; simpl; [constructor|].
  assert (Hnext : self = ((before ++ [x]) ++ rest)%list) by by rewrite <- app_assoc.
  specialize (IH _ Hnext). rewrite length_app in IH. simpl in IH.
  rewrite Nat.add_1_r in IH.
  case_bool_decide as Hx; [|done].
  simpl. constructor; [|done].
  intros (y & Hid & Hy)%list_elem_of_fmap.
  apply filter_index_elem_of in Hy as (n & Hn & Hf).
  apply bool_decide_eq_true in Hf.
  apply findIndex_Some in Hf as [_ Hlt].
  specialize (Hlt (length before) x ltac:(lia)).
  rewrite Hself, lookup_app_r, Nat.sub_diag in Hlt by lia.
  specialize (Hlt eq_refl). simpl in Hlt.
  apply String.eqb_neq in Hlt. congruence.
Qed.

Lemma uniqueProducts_spec products :
  uniqueProducts products `sublist_of` products ∧
  NoDup (uniqueProducts products).*1 ∧
  ∀ d, d ∈ products → d.1 ∈ (uniqueProducts products).*1.
Proof.
  split; [apply filter_index_sublist|]. split.
  - by apply (filter_index_NoDup products products []).
  - intros d Hd.
    destruct (findIndex_elem_of (fun p => String.eqb p.1 d.1) products d Hd)
      as [n Hn]; [apply String.eqb_refl|].
    destruct (findIndex_Some _ _ _ Hn) as [(x & Hx & Hid) _].
    apply String.eqb_eq in Hid.
    apply list_elem_of_fmap. exists x. split; [done|].
    apply filter_index_elem_of. exists n. split; [done|].
    apply bool_decide_eq_true. simpl. by rewrite Hid.
Qed.

(** X24.  With every draw of the shuffle within its bound, a
    [getProductsByCategories] whose queries all succeed answers 200 with
    at most five products, no [_id] twice, each of them found under one
    of the requested categories; when the requested categories hold at
    most five different products, every one of them is in the answer.
    The answer is 400 exactly when no categories are sent and 500 exactly
    when one of the queries rejects. *)
Theorem getProductsByCategories_selection find random_below categories :
  (∀ call n, (0 < n)%nat → (random_below call n < n)%nat) →
  ∃ response,
    getProductsByCategories find random_below categories = Some response ∧
    (response = ProductsFailed 400 ↔ truthy_str categories = false) ∧
    (response = ProductsFailed 500 ↔
     truthy_str categories = true ∧
     ∃ category, category ∈ split_on "," (default "" categories) ∧
                 find category = None) ∧
    ∀ selected,
      response = ProductsRetrieved selected →
      (length selected ≤ 5)%nat ∧
      NoDup selected.*1 ∧
      (∀ d, d ∈ selected →
            ∃ category found,
              category ∈ split_on "," (default "" categories) ∧
              find category = Some found ∧ d ∈ found) ∧
      ∀ ids : list string,
        (length ids ≤ 5)%nat →
        (∀ category found d,
           category ∈ split_on "," (default "" categories) →
           find category = Some found → d ∈ found → d.1 ∈ ids) →
        ∀ category found d,
          category ∈ split_on "," (default "" categories) →
          find category = Some found → d ∈ found → d.1 ∈ selected.*1.
Proof.
  intros Hrandom. unfold getProductsByCategories.
  destruct (truthy_str categories) eqn:Htruthy; simpl.
  2:{ eexists. split; [done|]. split; [done|]. split; [|done].
      split; [done|]. by intros [? _]. }
  destruct (collectProducts find _ []) as [products|] eqn:Hall.
  2:{ eexists. split; [done|]. split; [done|]. split; [|done].
      split; [|done]. intros _. split; [done|].
      by eapply collectProducts_fails. }
  pose proof (collectProducts_elem_of find _ _ _ Hall) as Hin.
  destruct (uniqueProducts_spec products) as (Hsub & Hnd & Hids).
  destruct (decide (uniqueProducts products = [])) as [Hnil|Hnil].
  - rewrite Hnil in *. simpl. eexists. split; [done|]. split; [done|].
    split.
    { split; [done|]. intros [_ (c & Hc & Hnone)].
      assert (collectProducts find (split_on "," (default "" categories)) [] = None)
        as Hcontra by (apply collectProducts_fails; eauto).
      congruence. }
    intros selected [= <-]. simpl. split; [lia|]. split; [constructor|].
    split; [by intros ? ?%elem_of_nil|].
    intros ids _ _ c found d Hc Hf Hd.
    apply (Hids d), Hin. right. by exists c, found.
  - destruct (shuffle_from_Permutation random_below Hrandom
                (length (uniqueProducts products) - 1) 0 (uniqueProducts products))
      as (shuffled & -> & Hperm).
    { destruct (uniqueProducts products); [done|simpl; lia]. }
    eexists. split; [done|]. split; [done|]. split.
    { split; [done|]. intros [_ (c & Hc & Hnone)].
      assert (collectProducts find (split_on "," (default "" categories)) [] = None)
        as Hcontra by (apply collectProducts_fails; eauto).
      congruence. }
    intros selected [= <-].
    split; [rewrite length_take; lia|]. split; [|split].
    + rewrite fmap_take. eapply sublist_NoDup; [|apply sublist_take].
      by rewrite Hperm.
    + intros d Hd.
      assert (d ∈ products) as Hdp.
      { eapply elem_of_sublist; [|exact Hsub]. rewrite <- Hperm.
        eapply elem_of_sublist; [exact Hd|apply sublist_take]. }
      apply Hin in Hdp as [?%elem_of_nil|?]; done.
    + intros ids Hlen Hcover c found d Hc Hf Hd.
      assert ((uniqueProducts products).*1 ⊆+ ids) as Hle.
      { apply NoDup_submseteq; [done|].
        intros id (x & -> & Hx)%list_elem_of_fmap.
        assert (x ∈ products) as Hxp by (eapply elem_of_sublist; eauto).
        apply Hin in Hxp as [?%elem_of_nil|(c' & f' & ? & ? & ?)]; [done|].
        by eapply Hcover. }
      apply submseteq_length in Hle. rewrite length_fmap in Hle.
      rewrite take_ge by (rewrite Hperm; lia).
      rewrite Hperm. apply Hids, Hin. right. by exists c, found.
Qed.

Lemma getProductsByCategories_selection_witness :
  ∃ response,
    getProductsByCategories
      (fun category =>
         if String.eqb category "mugs"
         then Some [("a", mkProduct "Flask A" 100 3 None);
                    ("b", mkProduct "Flask B" 40 1 None)]
         else Some [("b", mkProduct "Flask B" 40 1 None)])
      (fun _ _ => 0%nat) (Some "mugs,steel") = Some response ∧
    (response = ProductsFailed 400 ↔ truthy_str (Some "mugs,steel") = false).
Proof.
  destruct (getProductsByCategories_selection
      (fun category =>
         if String.eqb category "mugs"
         then Some [("a", mkProduct "Flask A" 100 3 None);
                    ("b", mkProduct "Flask B" 40 1 None)]
         else Some [("b", mkProduct "Flask B" 40 1 None)])
      (fun _ _ => 0%nat) (Some "mugs,steel")) as (response & H1 & H2 & _).
  - intros _ n Hn. exact Hn.
  - exists response. split; [exact H1|exact H2].
Defined.
